(** * The real-time synchronisation engine of the Q&A dashboard

    A shallow embedding of the Redux slice [questionsSlice]
    (src/unnamed/part_001) and of the [useWebSocket] hook
    (src/unnamed/part_002), with the properties of the specification
    stated and settled over it.

    Conventions of the embedding.
    - A JavaScript [number] that the code uses as an identifier, a counter
      or a time in milliseconds is a [Z]; where the code can produce [NaN]
      (a status outside the priority table, an unparsable date) the value is
      a [number], that is [NaN] or a finite [Z]. Where the code adds to a
      counter the sum is rounded as a double rounds it ([round_double]).
    - The slice is written with Immer: a reducer receives a draft and the
      store gets a fresh immutable tree. The state is therefore a plain
      record and every reducer a function from state to state.
    - [Date], [JSON.parse], the [WebSocket] constructor,
      [String.prototype.trim] and the [length] of a string are built-ins of
      the host; they are the variables of the section [Engine].
    - Time is not represented: a timeout that was set and not cleared
      fires at some later event. *)

From Stdlib Require Import ZArith Lia Ascii String.
From stdpp Require Import base option list strings sorting pretty gmap.

Local Open Scope Z_scope.

(** ** JavaScript numbers as far as the comparator needs them *)

Inductive number : Type :=
  | NaN
  | Num (z : Z).

(** [x - y] after [ToNumber]; [undefined] and an invalid date are [NaN]. *)
Definition js_sub (x y : number) : number :=
  match x, y with
  | Num a, Num b => Num (a - b)
  | _, _ => NaN
  end.

(** [x !== 0] *)
Definition js_neq_zero (x : number) : bool :=
  match x with
  | NaN => true
  | Num z => negb (z =? 0)
  end.

(** [x <= y] on numbers: false as soon as one side is [NaN]. *)
Definition js_le (x y : number) : Prop :=
  match x, y with
  | Num a, Num b => a <= b
  | _, _ => False
  end.

(** [x >= y] on numbers. *)
Definition js_ge (x y : number) : Prop := js_le y x.

(** ** [Array.prototype.sort]

    The comparator's result goes through [SortCompare], which reads [NaN]
    as [+0]. The sort is stable (ECMAScript 2019): an element moves behind
    another one only when the comparator says "greater". Stable insertion
    from the right is the model; for a consistent comparator every stable
    sort returns the same array. For a comparator that is not consistent
    (one that answers [NaN] on some pairs only) the standard leaves the
    order to the engine, and the model is then one possible order, not the
    engine's: what is stated of the code's order is stated of well-formed
    questions, or of what every stable sort does. *)

Definition SortCompare {A} (comparefn : A -> A -> number) (x y : A) : Z :=
  match comparefn x y with
  | NaN => 0
  | Num v => v
  end.

Fixpoint sort_insert {A} (comparefn : A -> A -> number) (x : A) (l : list A) : list A :=
  match l with
  | [] => [x]
  | y :: l' =>
      if 0 <? SortCompare comparefn x y
      then y :: sort_insert comparefn x l'
      else x :: y :: l'
  end.

Definition Array_sort {A} (comparefn : A -> A -> number) (l : list A) : list A :=
  foldr (sort_insert comparefn) [] l.

(** What the comparator orders: [a] may stand before [b]. *)
Definition may_precede {A} (cmp : A -> A -> number) (a b : A) : Prop :=
  SortCompare cmp a b <= 0.

(** ** Data model (part_001, lines 9-42) *)

Record Question : Type := mkQuestion {
  question_id : Z;
  message : string;
  status : string;
  created_at : string;
  guest_name : option string;
  username : option string;
  response_count : Z
}.

Record Response : Type := mkResponse {
  response_id : Z;
  r_question_id : Z;
  r_message : string;
  r_created_at : string;
  r_guest_name : option string;
  r_username : option string
}.

Record QuestionsState : Type := mkState {
  questions : list Question;
  selectedQuestion : option Question;
  responses : list Response;
  loading : bool;
  error : option string
}.

Definition initialState : QuestionsState :=
  {| questions := []; selectedQuestion := None; responses := [];
     loading := false; error := None |}.

Global Instance Question_eq_dec : EqDecision Question.
Proof. solve_decision. Defined.

Global Instance Response_eq_dec : EqDecision Response.
Proof. solve_decision. Defined.

Global Instance QuestionsState_eq_dec : EqDecision QuestionsState.
Proof. solve_decision. Defined.

(** The table [statusPriority] of [sortQuestions]; a key that is not in the
    table reads as [undefined], which the subtraction turns into [NaN]. *)
Definition statusPriority (s : string) : number :=
  if String.eqb s "Escalated" then Num 0
  else if String.eqb s "Pending" then Num 1
  else if String.eqb s "Answered" then Num 2
  else NaN.

(** [Number.MAX_SAFE_INTEGER], that is 2^53 - 1. *)
Definition MAX_SAFE_INTEGER : Z := 9007199254740991.

(** The double nearest to the integer [z], ties to the even significand, for
    [z] in the range of the finite doubles: every integer up to 2^53 in
    absolute value is a double, beyond it only the multiples of the unit in
    the last place of its 53-bit significand are. *)
Definition round_double (z : Z) : Z :=
  if Z.abs z <=? 9007199254740992 then z
  else
    let ulp := 2 ^ (Z.log2 (Z.abs z) - 52) in
    let q := z / ulp in
    let r := z mod ulp in
    if 2 * r <? ulp then q * ulp
    else if ulp <? 2 * r then (q + 1) * ulp
    else if Z.even q then q * ulp
    else (q + 1) * ulp.

(** [question.response_count += 1]: the sum is a double again. *)
Definition bump_response_count (q : Question) : Question :=
  {| question_id := question_id q; message := message q; status := status q;
     created_at := created_at q; guest_name := guest_name q;
     username := username q; response_count := round_double (response_count q + 1) |}.

(** ** A concrete [Date] on ISO-8601 UTC strings

    [iso_getTime] reads exactly the shape [YYYY-MM-DDTHH:MM:SSZ] and gives
    the milliseconds since the epoch, [NaN] on every other string. It is
    the instance of the section variable [Date_getTime] at which the
    scenarios of the specification are evaluated. *)

Definition digit_val (c : ascii) : option Z :=
  let n := Z.of_nat (nat_of_ascii c) in
  if (48 <=? n) && (n <=? 57) then Some (n - 48) else None.

Fixpoint digits_val (acc : Z) (cs : list ascii) : option Z :=
  match cs with
  | [] => Some acc
  | c :: cs' =>
      match digit_val c with
      | Some d => digits_val (acc * 10 + d) cs'
      | None => None
      end
  end.

Definition is_leap (y : Z) : bool :=
  ((y mod 4 =? 0) && negb (y mod 100 =? 0)) || (y mod 400 =? 0).

Definition days_in_month (y m : Z) : Z :=
  if m =? 2 then (if is_leap y then 29 else 28)
  else if (m =? 4) || (m =? 6) || (m =? 9) || (m =? 11) then 30
  else 31.

(** Days between 1970-01-01 and the civil date [y-m-d]. *)
Definition days_from_civil (y m d : Z) : Z :=
  let y' := if m <=? 2 then y - 1 else y in
  let era := y' / 400 in
  let yoe := y' - era * 400 in
  let mp := (m + 9) mod 12 in
  let doy := (153 * mp + 2) / 5 + d - 1 in
  let doe := yoe * 365 + yoe / 4 - yoe / 100 + doy in
  era * 146097 + doe - 719468.

Definition iso_getTime (s : string) : number :=
  match list_ascii_of_string s with
  | [y1; y2; y3; y4; d1; m1; m2; d2; a1; a2; t; h1; h2; c1; n1; n2; c2; s1; s2; z] =>
      if bool_decide (d1 = "-"%char /\ d2 = "-"%char /\ t = "T"%char /\
                      c1 = ":"%char /\ c2 = ":"%char /\ z = "Z"%char)
      then
        match digits_val 0 [y1; y2; y3; y4], digits_val 0 [m1; m2],
              digits_val 0 [a1; a2], digits_val 0 [h1; h2],
              digits_val 0 [n1; n2], digits_val 0 [s1; s2] with
        | Some y, Some m, Some d, Some hh, Some mm, Some ss =>
            if (1 <=? m) && (m <=? 12) && (1 <=? d) && (d <=? days_in_month y m)
               && (hh <=? 23) && (mm <=? 59) && (ss <=? 59)
            then Num ((((days_from_civil y m d * 24 + hh) * 60 + mm) * 60 + ss) * 1000)
            else NaN
        | _, _, _, _, _, _ => NaN
        end
      else NaN
  | _ => NaN
  end.

(** ** JSON values, as [JSON.parse] returns them

    Numbers are the integers the protocol carries (identifiers and
    counters). An object is the list of its own properties. *)

#[warnings="-register-all"] Inductive json : Type :=
  | JNull
  | JBool (b : bool)
  | JNumber (z : Z)
  | JString (s : string)
  | JArray (items : list json)
  | JObject (fields : list (string * json)).

Fixpoint assoc_get (k : string) (fields : list (string * json)) : option json :=
  match fields with
  | [] => None
  | (k', v) :: rest => if String.eqb k k' then Some v else assoc_get k rest
  end.

(** The result of reading a property: [undefined] or a JSON value. *)
Inductive jsval : Type :=
  | undefined
  | Val (v : json).

(** [m.k] for the two keys the router reads, [type] and [data], which no
    prototype provides. Reading a property of [null] throws a [TypeError]:
    that is the [None]. *)
Definition Get (m : json) (k : string) : option jsval :=
  match m with
  | JNull => None
  | JObject fields =>
      Some (match assoc_get k fields with Some v => Val v | None => undefined end)
  | _ => Some undefined
  end.

Definition as_number (v : option json) : option Z :=
  match v with Some (JNumber z) => Some z | _ => None end.

Definition as_string (v : option json) : option string :=
  match v with Some (JString s) => Some s | _ => None end.

(** A field of type [string | null]. *)
Definition as_nullable_string (v : option json) : option (option string) :=
  match v with
  | Some (JString s) => Some (Some s)
  | Some JNull => Some None
  | _ => None
  end.

(** [message.data] seen at the type [Question] that the action creator
    declares: [None] when the value does not inhabit the interface. *)
Definition asQuestion (v : jsval) : option Question :=
  match v with
  | Val (JObject f) =>
      match as_number (assoc_get "question_id" f), as_string (assoc_get "message" f),
            as_string (assoc_get "status" f), as_string (assoc_get "created_at" f),
            as_nullable_string (assoc_get "guest_name" f),
            as_nullable_string (assoc_get "username" f),
            as_number (assoc_get "response_count" f) with
      | Some i, Some m, Some s, Some c, Some g, Some u, Some n =>
          Some (mkQuestion i m s c g u n)
      | _, _, _, _, _, _, _ => None
      end
  | _ => None
  end.

Definition asResponse (v : jsval) : option Response :=
  match v with
  | Val (JObject f) =>
      match as_number (assoc_get "response_id" f), as_number (assoc_get "question_id" f),
            as_string (assoc_get "message" f), as_string (assoc_get "created_at" f),
            as_nullable_string (assoc_get "guest_name" f),
            as_nullable_string (assoc_get "username" f) with
      | Some i, Some q, Some m, Some c, Some g, Some u =>
          Some (mkResponse i q m c g u)
      | _, _, _, _, _, _ => None
      end
  | _ => None
  end.

(** ** Actions of the slice *)

Inductive Action : Type :=
  | AddQuestion (payload : Question)
  | UpdateQuestion (payload : Question)
  | AddResponse (payload : Response)
  | SetSelectedQuestion (payload : option Question)
  | ClearError
  | FetchQuestionsPending
  | FetchQuestionsFulfilled (payload : list Question)
  | FetchQuestionsRejected (payload : string)
  | CreateQuestionPending
  | CreateQuestionFulfilled (payload : Question)
  | CreateQuestionRejected (payload : string)
  | UpdateQuestionStatusPending
  | UpdateQuestionStatusFulfilled (payload : Question)
  | UpdateQuestionStatusRejected (payload : string)
  | FetchResponsesPending
  | FetchResponsesFulfilled (payload : list Response)
  | FetchResponsesRejected (payload : string)
  | CreateResponsePending
  | CreateResponseFulfilled (payload : Response)
  | CreateResponseRejected (payload : string).

(** The three transitions every thunk shares. *)
Definition thunk_pending (state : QuestionsState) : QuestionsState :=
  {| questions := questions state; selectedQuestion := selectedQuestion state;
     responses := responses state; loading := true; error := None |}.

Definition thunk_fulfilled_plain (state : QuestionsState) : QuestionsState :=
  {| questions := questions state; selectedQuestion := selectedQuestion state;
     responses := responses state; loading := false; error := error state |}.

Definition thunk_rejected (state : QuestionsState) (payload : string) : QuestionsState :=
  {| questions := questions state; selectedQuestion := selectedQuestion state;
     responses := responses state; loading := false; error := Some payload |}.

(** ** Console, exceptions and the connection's world *)

Inductive Exn : Type :=
  | SyntaxError
  | TypeError.

Inductive LogEntry : Type :=
  | warn_websocket_disabled
  | log_connected
  | log_message_received (m : json)
  | log_unknown_type (t : jsval)
  | error_parsing_message (e : Exn)
  | error_websocket
  | log_disconnected
  | error_creating_websocket.

Inductive ReadyState : Type :=
  | CONNECTING
  | OPEN
  | CLOSING
  | CLOSED.

Global Instance ReadyState_eq_dec : EqDecision ReadyState.
Proof. solve_decision. Defined.

(** How the body of a handler ends. [Untyped] marks a recognised push whose
    [data] is not of the interface its reducer declares: the state that the
    JavaScript would build is not a [QuestionsState]. *)
Inductive outcome : Type :=
  | Returned (state : QuestionsState) (console : list LogEntry)
  | Thrown (e : Exn) (console : list LogEntry)
  | Untyped.

(** [process.env] and [window.location] as the hook reads them;
    [location_protocol] is [None] where [window] is undefined. *)
Record Env : Type := mkEnv {
  NEXT_PUBLIC_API_URL : option string;
  location_protocol : option string
}.

(** The refs of the hook, the sockets created so far (a socket is its
    index), the timeouts still pending, the store and the console.
    Timeout identifiers count from 1, as in a browser. *)
Record World : Type := mkWorld {
  wsRef : option nat;
  reconnectTimeoutRef : option nat;
  isConnecting : bool;
  sockets : list ReadyState;
  timers : list nat;
  next_timer : nat;
  store : QuestionsState;
  console : list LogEntry
}.

Definition initialWorld : World :=
  {| wsRef := None; reconnectTimeoutRef := None; isConnecting := false;
     sockets := []; timers := []; next_timer := 1%nat;
     store := initialState; console := [] |}.

Inductive Event : Type :=
  | Mount
  | Unmount
  | TimerFires (t : nat)
  | Opened (ws : nat)
  | Errored (ws : nat)
  | Closed (ws : nat)
  | Received (ws : nat) (data : string)
  | Dispatch (a : Action).

Definition RECONNECT_DELAY : Z := 3000.

(** [process.env.NEXT_PUBLIC_API_URL || 'http://localhost:8000'] *)
Definition apiUrl (env : Env) : string :=
  match NEXT_PUBLIC_API_URL env with
  | Some u => if String.eqb u EmptyString then "http://localhost:8000" else u
  | None => "http://localhost:8000"
  end.

Definition isApiHttp (env : Env) : bool := String.prefix "http://" (apiUrl env).

Definition isPageHttps (env : Env) : bool :=
  match location_protocol env with
  | Some p => String.eqb p "https:"
  | None => false
  end.

(** [url.replace(/^https?/, protocol)] *)
Definition replace_scheme (protocol url : string) : string :=
  if String.prefix "https" url
  then protocol +:+ String.substring 5 (String.length url - 5) url
  else if String.prefix "http" url
  then protocol +:+ String.substring 4 (String.length url - 4) url
  else url.

Definition getWebSocketURL (env : Env) : string :=
  let protocol := if isPageHttps env then "wss" else "ws" in
  replace_scheme protocol (apiUrl env) +:+ "/ws".

Definition WS_URL := getWebSocketURL.

(** ** The authentication slice (part_000, authSlice)

    [localStorage] is a finite map from keys to strings; the reducers that
    write to it take it and return it. [window_defined] is
    [typeof window !== 'undefined']. *)

Module Auth.

Record AuthState : Type := mkAuthState {
  user : option string;
  token : option string;
  loading : bool;
  error : option string
}.

(** The body of a successful [login] or [register] response. *)
Record Credentials : Type := mkCredentials {
  access_token : string;
  username : string
}.

Inductive Action : Type :=
  | Logout
  | ClearError
  | RegisterPending
  | RegisterFulfilled (payload : Credentials)
  | RegisterRejected (payload : string)
  | LoginPending
  | LoginFulfilled (payload : Credentials)
  | LoginRejected (payload : string).

Definition loggedOut : AuthState :=
  {| user := None; token := None; loading := false; error := None |}.

(** A string read from the storage is truthy when it is there and not
    empty. *)
Definition truthy (v : option string) : bool :=
  match v with
  | Some s => negb (String.eqb s EmptyString)
  | None => false
  end.

(** [getInitialState], lines 19-41 of the slice. *)
Definition getInitialState (window_defined : bool) (localStorage : gmap string string)
  : AuthState :=
  if window_defined then
    match localStorage !! "token", localStorage !! "username" with
    | Some t, Some u =>
        if truthy (Some t) && truthy (Some u)
        then {| user := Some u; token := Some t; loading := false; error := None |}
        else loggedOut
    | _, _ => loggedOut
    end
  else loggedOut.

Definition logout (window_defined : bool) (state : AuthState)
    (localStorage : gmap string string) : AuthState * gmap string string :=
  ({| user := None; token := None; loading := loading state; error := None |},
   if window_defined then delete "username" (delete "token" localStorage)
   else localStorage).

Definition clearError (state : AuthState) : AuthState :=
  {| user := user state; token := token state; loading := loading state;
     error := None |}.

Definition pending (state : AuthState) : AuthState :=
  {| user := user state; token := token state; loading := true; error := None |}.

(** [register.fulfilled] and [login.fulfilled] have the same body. *)
Definition fulfilled (window_defined : bool) (state : AuthState)
    (localStorage : gmap string string) (payload : Credentials)
  : AuthState * gmap string string :=
  ({| user := Some (username payload); token := Some (access_token payload);
      loading := false; error := error state |},
   if window_defined
   then <["username" := username payload]>
          (<["token" := access_token payload]> localStorage)
   else localStorage).

Definition rejected (state : AuthState) (payload : string) : AuthState :=
  {| user := user state; token := token state; loading := false;
     error := Some payload |}.

(** The reducer of the slice, with the storage it writes to. *)
Definition reducer (window_defined : bool)
    (sl : AuthState * gmap string string) (a : Action)
  : AuthState * gmap string string :=
  let (state, localStorage) := sl in
  match a with
  | Logout => logout window_defined state localStorage
  | ClearError => (clearError state, localStorage)
  | RegisterPending | LoginPending => (pending state, localStorage)
  | RegisterFulfilled p | LoginFulfilled p =>
      fulfilled window_defined state localStorage p
  | RegisterRejected e | LoginRejected e => (rejected state e, localStorage)
  end.

(** The store is created from the storage of an earlier session and then
    runs the actions. *)
Definition run (window_defined : bool) (localStorage : gmap string string)
    (actions : list Action) : AuthState * gmap string string :=
  foldl (reducer window_defined)
        (getInitialState window_defined localStorage, localStorage) actions.

End Auth.

(** ** The question card (QuestionCard.tsx, lines 26-50) *)

Definition getStatusColor (status : string) : string :=
  if String.eqb status "Pending" then "bg-yellow-100 text-yellow-800 border-yellow-300"
  else if String.eqb status "Escalated" then "bg-red-100 text-red-800 border-red-300"
  else if String.eqb status "Answered" then "bg-green-100 text-green-800 border-green-300"
  else "bg-gray-100 text-gray-800 border-gray-300".

(** [a || b] on values of type [string | null]: the first one that is
    neither null nor empty, otherwise the second. *)
Definition or_else (a b : option string) : option string :=
  match a with
  | Some s => if String.eqb s EmptyString then b else Some s
  | None => b
  end.



(** ** The forum page (the filter of ForumPage) *)

Definition filteredQuestions (statusFilter : string) (questions : list Question)
  : list Question :=
  if String.eqb statusFilter "all" then questions
  else filter (fun q => status q = statusFilter) questions.

(** ** Relative dates (part_000, dateUtils) *)

(** [Math.floor(x / d)] *)
Definition js_floor_div (x : number) (d : Z) : number :=
  match x with
  | NaN => NaN
  | Num a => Num (a / d)
  end.

(** [x < k] and [x > k]: false on [NaN]. *)
Definition js_lt (x : number) (k : Z) : bool :=
  match x with
  | NaN => false
  | Num a => a <? k
  end.

Definition js_gt (x : number) (k : Z) : bool :=
  match x with
  | NaN => false
  | Num a => k <? a
  end.

(** The number inside a template literal. *)
Definition js_toString (x : number) : string :=
  match x with
  | NaN => "NaN"
  | Num a => pretty a
  end.

(** The template [`${n} unit${n > 1 ? 's' : ''} ago`] of each branch. *)
Definition ago (n : number) (unit : string) : string :=
  js_toString n +:+ " " +:+ unit +:+ (if js_gt n 1 then "s" else EmptyString) +:+ " ago".

(** ** The question form (QuestionForm.tsx, lines 24-62) *)

Record FormErrors : Type := mkFormErrors {
  message_error : option string;
  guestName_error : option string
}.

(** The argument of the [createQuestion] thunk. *)
Record CreateQuestionArgs : Type := mkCreateQuestionArgs {
  cq_message : string;
  cq_guestName : option string;
  cq_token : option string
}.

(** A concrete [trim] on the white space of ASCII, at which the form is
    evaluated. *)
Definition is_space (c : ascii) : bool :=
  let n := nat_of_ascii c in
  ((9 <=? n) && (n <=? 13))%nat || (n =? 32)%nat.

Fixpoint trim_start (cs : list ascii) : list ascii :=
  match cs with
  | c :: cs' => if is_space c then trim_start cs' else cs
  | [] => []
  end.

Definition ascii_trim (s : string) : string :=
  string_of_list_ascii
    (rev (trim_start (rev (trim_start (list_ascii_of_string s))))).

(** ** Data of the scenarios

    The concrete questions, responses, payloads and environments at which
    the properties below are evaluated. *)

Definition q_pending : Question :=
  mkQuestion 1 "How do I reset my password?" "Pending" "2024-01-01T00:00:00Z"
             None (Some "ana") 3.

Definition q_escalated : Question :=
  mkQuestion 2 "The site is down" "Escalated" "2024-01-02T00:00:00Z"
             (Some "guest") None 0.

(** The question 1 again, as a later push carries it. *)
Definition q_pending_later : Question :=
  mkQuestion 1 "How do I reset my password?" "Answered" "2024-01-01T00:00:00Z"
             None (Some "ana") 3.

(** A question whose status is not a key of [statusPriority]. *)
Definition q_closed : Question :=
  mkQuestion 3 "Old thread" "Closed" "2024-01-03T00:00:00Z" None (Some "bo") 0.

(** The question 1 with a count of 2^53, the first integer whose successor
    is no double. *)
Definition q_saturated : Question :=
  mkQuestion 1 "How do I reset my password?" "Pending" "2024-01-01T00:00:00Z"
             None (Some "ana") 9007199254740992.

Definition r_nine : Response :=
  mkResponse 9 1 "Use the reset link" "2024-01-04T00:00:00Z" None (Some "bo").

(** A response to the question 2. *)
Definition r_other : Response :=
  mkResponse 10 2 "We are on it" "2024-01-04T00:00:00Z" None (Some "bo").

(** The double quote character. *)
Definition dq : string := String (ascii_of_nat 34) EmptyString.

(** The unknown push of the scenario: an object whose [type] is [ping]. *)
Definition ping_payload : string :=
  "{" +:+ dq +:+ "type" +:+ dq +:+ ":" +:+ dq +:+ "ping" +:+ dq +:+ "}".

(** [JSON.parse] on the payloads of the scenarios; a string outside the
    table stands for one that does not parse. *)
Definition scenario_parse (data : string) : option json :=
  if String.eqb data ping_payload then Some (JObject [("type", JString "ping")])
  else if String.eqb data "null" then Some JNull
  else if String.eqb data "42" then Some (JNumber 42)
  else None.

Definition never_throws (url : string) : bool := false.

(** A page served over https: with the API origin left at its default. *)
Definition https_page_http_api : Env :=
  {| NEXT_PUBLIC_API_URL := None; location_protocol := Some "https:" |}.

Definition https_page_https_api : Env :=
  {| NEXT_PUBLIC_API_URL := Some "https://api.example.org";
     location_protocol := Some "https:" |}.

(** A storage left by an earlier session and the credentials of a login. *)
Definition stored_session : gmap string string :=
  <["username" := "ana"]> (<["token" := "tok-1"]> ∅).

Definition bo_credentials : Auth.Credentials :=
  Auth.mkCredentials "tok-2" "bo".

(** An API origin given as a path. *)
Definition http_page_relative_api : Env :=
  {| NEXT_PUBLIC_API_URL := Some "/backend"; location_protocol := Some "http:" |}.

Definition quoted (s : string) : string := dq +:+ s +:+ dq.

(** The push of the response 9 to the question 1, as text and as
    [JSON.parse] reads it. *)
Definition new_response_payload : string :=
  "{" +:+ quoted "type" +:+ ":" +:+ quoted "new_response" +:+ "," +:+
  quoted "data" +:+ ":{" +:+
  quoted "response_id" +:+ ":9," +:+ quoted "question_id" +:+ ":1," +:+
  quoted "message" +:+ ":" +:+ quoted "Use the reset link" +:+ "," +:+
  quoted "created_at" +:+ ":" +:+ quoted "2024-01-04T00:00:00Z" +:+ "," +:+
  quoted "guest_name" +:+ ":null," +:+
  quoted "username" +:+ ":" +:+ quoted "bo" +:+ "}}".

Definition new_response_message : json :=
  JObject [("type", JString "new_response");
           ("data", JObject [("response_id", JNumber 9); ("question_id", JNumber 1);
                             ("message", JString "Use the reset link");
                             ("created_at", JString "2024-01-04T00:00:00Z");
                             ("guest_name", JNull); ("username", JString "bo")])].

Definition push_parse (data : string) : option json :=
  if String.eqb data new_response_payload then Some new_response_message
  else scenario_parse data.

Section Engine.

(** [new Date(s).getTime()]: the time in milliseconds, [NaN] for a string
    that [Date] cannot read. *)
Variable Date_getTime : string -> number.

(** [JSON.parse]: [None] when it throws a [SyntaxError]. *)
Variable JSON_parse : string -> option json.

(** Whether [new WebSocket(url)] throws. *)
Variable WebSocket_throws : string -> bool.

(** *** The Store (part_001) *)

(** The comparator of [sortQuestions], lines 48-61. *)
Definition compareQuestions (a b : Question) : number :=
  let statusDiff := js_sub (statusPriority (status a)) (statusPriority (status b)) in
  if js_neq_zero statusDiff then statusDiff
  else js_sub (Date_getTime (created_at b)) (Date_getTime (created_at a)).

Definition sortQuestions (qs : list Question) : list Question :=
  Array_sort compareQuestions qs.

(** [findIndex((q) => q.question_id === id)]; [None] is the [-1]. *)
Definition findIndex (id : Z) (qs : list Question) : option nat :=
  fst <$> list_find (fun q => question_id q = id) qs.

(** [find(q => q.question_id === id)] together with the position of the
    object found, which the reducer then mutates. *)
Definition find (id : Z) (qs : list Question) : option (nat * Question) :=
  list_find (fun q => question_id q = id) qs.

(** Lines 175-177. *)
Definition addQuestion (state : QuestionsState) (payload : Question) : QuestionsState :=
  {| questions := sortQuestions (payload :: questions state);
     selectedQuestion := selectedQuestion state;
     responses := responses state;
     loading := loading state;
     error := error state |}.

(** Lines 178-188. *)
Definition updateQuestion (state : QuestionsState) (payload : Question) : QuestionsState :=
  let questions1 :=
    match findIndex (question_id payload) (questions state) with
    | Some index => sortQuestions (<[index := payload]> (questions state))
    | None => questions state
    end in
  let selected1 :=
    match selectedQuestion state with
    | Some sel =>
        if bool_decide (question_id sel = question_id payload)
        then Some payload else Some sel
    | None => None
    end in
  {| questions := questions1;
     selectedQuestion := selected1;
     responses := responses state;
     loading := loading state;
     error := error state |}.

(** Lines 189-196. *)
Definition addResponse (state : QuestionsState) (payload : Response) : QuestionsState :=
  let responses1 := responses state ++ [payload] in
  let questions1 :=
    match find (r_question_id payload) (questions state) with
    | Some (i, question) => <[i := bump_response_count question]> (questions state)
    | None => questions state
    end in
  {| questions := questions1;
     selectedQuestion := selectedQuestion state;
     responses := responses1;
     loading := loading state;
     error := error state |}.

(** Lines 197-199. *)
Definition setSelectedQuestion (state : QuestionsState) (payload : option Question)
  : QuestionsState :=
  {| questions := questions state;
     selectedQuestion := payload;
     responses := responses state;
     loading := loading state;
     error := error state |}.

(** Lines 200-202. *)
Definition clearError (state : QuestionsState) : QuestionsState :=
  {| questions := questions state;
     selectedQuestion := selectedQuestion state;
     responses := responses state;
     loading := loading state;
     error := None |}.

(** Lines 211-214. *)
Definition fetchQuestions_fulfilled (state : QuestionsState) (payload : list Question)
  : QuestionsState :=
  {| questions := sortQuestions payload;
     selectedQuestion := selectedQuestion state;
     responses := responses state;
     loading := false;
     error := error state |}.

(** Lines 224-227. *)
Definition createQuestion_fulfilled (state : QuestionsState) (payload : Question)
  : QuestionsState := thunk_fulfilled_plain state.

(** Lines 237-240. *)
Definition updateQuestionStatus_fulfilled (state : QuestionsState) (payload : Question)
  : QuestionsState := thunk_fulfilled_plain state.

(** Lines 250-253. *)
Definition fetchResponses_fulfilled (state : QuestionsState) (payload : list Response)
  : QuestionsState :=
  {| questions := questions state;
     selectedQuestion := selectedQuestion state;
     responses := payload;
     loading := false;
     error := error state |}.

(** Lines 263-266. *)
Definition createResponse_fulfilled (state : QuestionsState) (payload : Response)
  : QuestionsState := thunk_fulfilled_plain state.

(** The reducer of the slice: [reducers] and [extraReducers] together. *)
Definition reducer (state : QuestionsState) (action : Action) : QuestionsState :=
  match action with
  | AddQuestion q => addQuestion state q
  | UpdateQuestion q => updateQuestion state q
  | AddResponse r => addResponse state r
  | SetSelectedQuestion q => setSelectedQuestion state q
  | ClearError => clearError state
  | FetchQuestionsPending => thunk_pending state
  | FetchQuestionsFulfilled l => fetchQuestions_fulfilled state l
  | FetchQuestionsRejected e => thunk_rejected state e
  | CreateQuestionPending => thunk_pending state
  | CreateQuestionFulfilled q => createQuestion_fulfilled state q
  | CreateQuestionRejected e => thunk_rejected state e
  | UpdateQuestionStatusPending => thunk_pending state
  | UpdateQuestionStatusFulfilled q => updateQuestionStatus_fulfilled state q
  | UpdateQuestionStatusRejected e => thunk_rejected state e
  | FetchResponsesPending => thunk_pending state
  | FetchResponsesFulfilled l => fetchResponses_fulfilled state l
  | FetchResponsesRejected e => thunk_rejected state e
  | CreateResponsePending => thunk_pending state
  | CreateResponseFulfilled r => createResponse_fulfilled state r
  | CreateResponseRejected e => thunk_rejected state e
  end.

(** The Store states that a run of the application can be in. *)
Definition run_actions (actions : list Action) : QuestionsState :=
  foldl reducer initialState actions.

Definition reachable (state : QuestionsState) : Prop :=
  exists actions, state = run_actions actions.

(** *** The Message Router (part_002, lines 57-78) *)

(** The body of the [try]. *)
Definition onmessage_try (data : string) (state : QuestionsState)
    (out : list LogEntry) : outcome :=
  match JSON_parse data with
  | None => Thrown SyntaxError out
  | Some message =>
      let out1 := out ++ [log_message_received message] in
      match Get message "type" with
      | None => Thrown TypeError out1
      | Some (Val (JString ty)) =>
          if String.eqb ty "new_question" then
            match Get message "data" ≫= asQuestion with
            | Some q => Returned (reducer state (AddQuestion q)) out1
            | None => Untyped
            end
          else if String.eqb ty "question_updated" then
            match Get message "data" ≫= asQuestion with
            | Some q => Returned (reducer state (UpdateQuestion q)) out1
            | None => Untyped
            end
          else if String.eqb ty "new_response" then
            match Get message "data" ≫= asResponse with
            | Some r => Returned (reducer state (AddResponse r)) out1
            | None => Untyped
            end
          else Returned state (out1 ++ [log_unknown_type (Val (JString ty))])
      | Some ty => Returned state (out1 ++ [log_unknown_type ty])
      end
  end.

(** [try { ... } catch (error) { console.error(...) }] *)
Definition onmessage (data : string) (state : QuestionsState)
    (out : list LogEntry) : outcome :=
  match onmessage_try data state out with
  | Thrown e out1 => Returned state (out1 ++ [error_parsing_message e])
  | r => r
  end.

(** The discriminator of a payload that parses: [None] when reading
    [type] throws, otherwise the value read. *)
Definition discriminator (data : string) : option jsval :=
  JSON_parse data ≫= fun message => Get message "type".

Definition recognised (ty : jsval) : Prop :=
  ty = Val (JString "new_question") \/
  ty = Val (JString "question_updated") \/
  ty = Val (JString "new_response").

(** *** The Connection Manager (part_002, lines 21-126) *)

Definition set_refs (ws : option nat) (t : option nat) (c : bool) (w : World) : World :=
  {| wsRef := ws; reconnectTimeoutRef := t; isConnecting := c;
     sockets := sockets w; timers := timers w; next_timer := next_timer w;
     store := store w; console := console w |}.

Definition set_sockets (l : list ReadyState) (w : World) : World :=
  {| wsRef := wsRef w; reconnectTimeoutRef := reconnectTimeoutRef w;
     isConnecting := isConnecting w;
     sockets := l; timers := timers w; next_timer := next_timer w;
     store := store w; console := console w |}.

Definition set_timers (l : list nat) (w : World) : World :=
  {| wsRef := wsRef w; reconnectTimeoutRef := reconnectTimeoutRef w;
     isConnecting := isConnecting w;
     sockets := sockets w; timers := l; next_timer := next_timer w;
     store := store w; console := console w |}.

Definition set_store (s : QuestionsState) (out : list LogEntry) (w : World) : World :=
  {| wsRef := wsRef w; reconnectTimeoutRef := reconnectTimeoutRef w;
     isConnecting := isConnecting w;
     sockets := sockets w; timers := timers w; next_timer := next_timer w;
     store := s; console := out |}.

Definition console_write (e : LogEntry) (w : World) : World :=
  set_store (store w) (console w ++ [e]) w.

(** [reconnectTimeoutRef.current = setTimeout(() => connect(), RECONNECT_DELAY)] *)
Definition schedule_reconnect (w : World) : World :=
  let t := next_timer w in
  {| wsRef := wsRef w; reconnectTimeoutRef := Some t;
     isConnecting := isConnecting w;
     sockets := sockets w; timers := timers w ++ [t]; next_timer := S t;
     store := store w; console := console w |}.

(** [if (reconnectTimeoutRef.current) clearTimeout(reconnectTimeoutRef.current)];
    the ref keeps the identifier. *)
Definition clear_reconnect (w : World) : World :=
  match reconnectTimeoutRef w with
  | Some t => set_timers (filter (fun t' => t' <> t) (timers w)) w
  | None => w
  end.

(** [wsRef.current && wsRef.current.readyState === WebSocket.OPEN] *)
Definition ws_is_open (w : World) : bool :=
  match wsRef w with
  | Some ws => bool_decide (sockets w !! ws = Some OPEN)
  | None => false
  end.

(** Lines 27-106. *)
Definition connect (env : Env) (w : World) : World :=
  if isApiHttp env && isPageHttps env then
    console_write warn_websocket_disabled w
  else if isConnecting w || ws_is_open w then w
  else if WebSocket_throws (WS_URL env) then
    schedule_reconnect
      (set_refs (wsRef w) (reconnectTimeoutRef w) false
         (console_write error_creating_websocket w))
  else
    let ws := length (sockets w) in
    set_refs (Some ws) (reconnectTimeoutRef w) true
      (set_sockets (sockets w ++ [CONNECTING]) w).

(** Lines 48-55. *)
Definition onopen (w : World) : World :=
  clear_reconnect
    (set_refs (wsRef w) (reconnectTimeoutRef w) false (console_write log_connected w)).

(** Lines 80-83. *)
Definition onerror (w : World) : World :=
  set_refs (wsRef w) (reconnectTimeoutRef w) false (console_write error_websocket w).

(** Lines 85-94. *)
Definition onclose (w : World) : World :=
  schedule_reconnect
    (set_refs None (reconnectTimeoutRef w) false (console_write log_disconnected w)).

(** [ws.close()]: a socket that is connecting or open starts closing. *)
Definition close (s : ReadyState) : ReadyState :=
  match s with
  | CONNECTING | OPEN => CLOSING
  | CLOSING => CLOSING
  | CLOSED => CLOSED
  end.

(** The cleanup of the effect, lines 112-120. *)
Definition cleanup (w : World) : World :=
  let w1 := clear_reconnect w in
  match wsRef w1 with
  | Some ws =>
      set_refs None (reconnectTimeoutRef w1) (isConnecting w1)
        (set_sockets (alter close ws (sockets w1)) w1)
  | None => w1
  end.

(** One event of the host. [None]: the event cannot happen in this world
    (no such socket or timer), or a push left the typed state. The world
    has the refs of one instance of the hook and no event for a closing
    handshake that the server starts. *)
Definition step (env : Env) (w : World) (ev : Event) : option World :=
  match ev with
  | Mount => Some (connect env w)
  | Unmount => Some (cleanup w)
  | TimerFires t =>
      if bool_decide (t ∈ timers w)
      then Some (connect env (set_timers (filter (fun t' => t' <> t) (timers w)) w))
      else None
  | Opened ws =>
      if bool_decide (sockets w !! ws = Some CONNECTING)
      then Some (onopen (set_sockets (<[ws := OPEN]> (sockets w)) w))
      else None
  | Errored ws =>
      match sockets w !! ws with
      | Some CONNECTING | Some OPEN => Some (onerror w)
      | _ => None
      end
  | Closed ws =>
      match sockets w !! ws with
      | Some CLOSED | None => None
      | Some _ => Some (onclose (set_sockets (<[ws := CLOSED]> (sockets w)) w))
      end
  | Received ws data =>
      if bool_decide (sockets w !! ws = Some OPEN)
      then
        match onmessage data (store w) (console w) with
        | Returned s out => Some (set_store s out w)
        | _ => None
        end
      else None
  | Dispatch a => Some (set_store (reducer (store w) a) (console w) w)
  end.

Fixpoint run (env : Env) (w : World) (evs : list Event) : option World :=
  match evs with
  | [] => Some w
  | ev :: evs' =>
      match step env w ev with
      | Some w' => run env w' evs'
      | None => None
      end
  end.

(** Channel connections created and reconnect attempts scheduled between
    two worlds. *)
Definition sockets_created (w w' : World) : nat := (length (sockets w') - length (sockets w))%nat.
Definition timers_scheduled (w w' : World) : nat := (next_timer w' - next_timer w)%nat.

(** *** Vocabulary of the properties *)

(** [priority(a.status) <= priority(b.status)], and on a tie
    [a.created_at >= b.created_at]. *)
Definition in_order (a b : Question) : Prop :=
  js_le (statusPriority (status a)) (statusPriority (status b)) /\
  (statusPriority (status a) = statusPriority (status b) ->
   js_ge (Date_getTime (created_at a)) (Date_getTime (created_at b))).

Definition adjacent_in_order (l : list Question) : Prop :=
  forall (i : nat) a b, l !! i = Some a -> l !! S i = Some b -> in_order a b.

(** No channel connection has been created and no reconnect attempt
    scheduled since the initial world. *)
Definition channel_skipped (w : World) : Prop :=
  sockets w = [] /\ timers w = [] /\ next_timer w = next_timer initialWorld /\
  wsRef w = None /\ reconnectTimeoutRef w = None.

(** A Question as the data model describes it: a status of the
    enumeration and a creation time that [Date] reads. *)
Definition well_formed (q : Question) : Prop :=
  statusPriority (status q) <> NaN /\ Date_getTime (created_at q) <> NaN.

Definition entries_with_id (id : Z) (l : list Question) : list Question :=
  filter (fun q => question_id q = id) l.

(** The responses are those of the selected question. *)
Definition scoped (state : QuestionsState) : Prop :=
  forall sel, selectedQuestion state = Some sel ->
  forall r, r ∈ responses state -> r_question_id r = question_id sel.

(** *** Relative dates (part_000, [formatDistanceToNow])

    [now] is the time that [new Date()] reads from the clock, in
    milliseconds. *)
Definition formatDistanceToNow (now : Z) (dateString : string) : string :=
  let date := Date_getTime dateString in
  let seconds := js_floor_div (js_sub (Num now) date) 1000 in
  if js_lt seconds 60 then "just now"
  else
    let minutes := js_floor_div seconds 60 in
    if js_lt minutes 60 then ago minutes "minute"
    else
      let hours := js_floor_div minutes 60 in
      if js_lt hours 24 then ago hours "hour"
      else
        let days := js_floor_div hours 24 in
        if js_lt days 30 then ago days "day"
        else
          let months := js_floor_div days 30 in
          if js_lt months 12 then ago months "month"
          else
            let years := js_floor_div months 12 in
            ago years "year".

(** The same by the seconds elapsed: the unit and the count that each
    range of seconds is shown with. *)
Definition distance_of_seconds (s : Z) : string :=
  if s <? 60 then "just now"
  else if s <? 3600 then ago (Num (s / 60)) "minute"
  else if s <? 86400 then ago (Num (s / 3600)) "hour"
  else if s <? 2592000 then ago (Num (s / 86400)) "day"
  else if s <? 31104000 then ago (Num (s / 2592000)) "month"
  else ago (Num (s / 31104000)) "year".

(** *** The question form (QuestionForm.tsx) *)

(** [String.prototype.trim] *)
Variable String_trim : string -> string.

(** [s.length]: the number of UTF-16 code units of the string. *)
Variable String_length : string -> nat.

(** [validate], lines 24-39: the errors it sets and its result. [user] is
    the user of the authentication slice, [None] when nobody is logged in. *)
Definition QuestionForm_validate (user : option string) (message guestName : string)
  : FormErrors * bool :=
  let message_err :=
    if String.eqb (String_trim message) EmptyString
    then Some "Question cannot be empty"
    else if (1000 <? String_length message)%nat
    then Some "Question must be less than 1000 characters"
    else None in
  let guestName_err :=
    match user with
    | None =>
        if String.eqb (String_trim guestName) EmptyString
        then Some "Guest name is required" else None
    | Some _ => None
    end in
  ({| message_error := message_err; guestName_error := guestName_err |},
   match message_err, guestName_err with
   | None, None => true
   | _, _ => false
   end).

(** [handleSubmit], lines 41-53, up to the dispatch: the argument given to
    [createQuestion], or [None] when the form returns before it. *)
Definition QuestionForm_handleSubmit (user token : option string)
    (message guestName : string) : option CreateQuestionArgs :=
  if snd (QuestionForm_validate user message guestName) then
    Some {| cq_message := String_trim message;
            cq_guestName := match user with
                            | None => Some (String_trim guestName)
                            | Some _ => None
                            end;
            cq_token := or_else token None |}
  else None.

(** *** Vocabulary of the further properties of the Store *)

(** What the comparator reads of a question. *)
Definition sort_key (q : Question) : string * string := (status q, created_at q).

(** The questions an action carries are well formed. *)
Definition payload_well_formed (a : Action) : Prop :=
  match a with
  | AddQuestion q | UpdateQuestion q => well_formed q
  | FetchQuestionsFulfilled l => Forall well_formed l
  | _ => True
  end.

(** The questions of the Store are well formed and in order. *)
Definition ordered (state : QuestionsState) : Prop :=
  Forall well_formed (questions state) /\ adjacent_in_order (questions state).

Definition changes_questions (a : Action) : Prop :=
  match a with
  | AddQuestion _ | UpdateQuestion _ | AddResponse _ | FetchQuestionsFulfilled _ => True
  | _ => False
  end.

Definition changes_responses (a : Action) : Prop :=
  match a with
  | AddResponse _ | FetchResponsesFulfilled _ => True
  | _ => False
  end.

Definition changes_error (a : Action) : Prop :=
  match a with
  | ClearError
  | FetchQuestionsPending | CreateQuestionPending | UpdateQuestionStatusPending
  | FetchResponsesPending | CreateResponsePending
  | FetchQuestionsRejected _ | CreateQuestionRejected _ | UpdateQuestionStatusRejected _
  | FetchResponsesRejected _ | CreateResponseRejected _ => True
  | _ => False
  end.

Definition changes_loading (a : Action) : Prop :=
  match a with
  | AddQuestion _ | UpdateQuestion _ | AddResponse _ | SetSelectedQuestion _
  | ClearError => False
  | _ => True
  end.

Definition is_refetch (a : Action) : Prop :=
  match a with
  | FetchQuestionsFulfilled _ => True
  | _ => False
  end.

(** *** Vocabulary of the further properties of the connection *)

(** A socket that has not started closing. *)
Definition live (s : ReadyState) : Prop := s = CONNECTING \/ s = OPEN.

(** The policy gate of [connect] lets the call through and the constructor
    returns a socket. *)
Definition can_open (env : Env) : Prop :=
  isApiHttp env && isPageHttps env = false /\ WebSocket_throws (WS_URL env) = false.

(** ** Properties *)

(** *** The sort *)

Lemma sort_insert_perm {A} (cmp : A -> A -> number) (x : A) (l : list A) :
  sort_insert cmp x l ≡ₚ x :: l.
Proof.
  induction l as [|y l IH]; simpl; [done|].
  destruct (0 <? SortCompare cmp x y); [|done].
  rewrite IH. apply Permutation_swap.
Qed.

Lemma Array_sort_perm {A} (cmp : A -> A -> number) (l : list A) :
  Array_sort cmp l ≡ₚ l.
Proof.
  induction l as [|x l IH]; simpl; [done|].
  unfold Array_sort in *. simpl. rewrite sort_insert_perm. by rewrite IH.
Qed.

Lemma Array_sort_length {A} (cmp : A -> A -> number) (l : list A) :
  length (Array_sort cmp l) = length l.
Proof. apply Permutation_length, Array_sort_perm. Qed.

Section Sortedness.
Context {A : Type} (cmp : A -> A -> number) (P : A -> Prop).
Hypothesis cmp_flip :
  forall x y, P x -> P y -> 0 < SortCompare cmp x y -> SortCompare cmp y x <= 0.

Lemma sort_insert_HdRel (z x : A) (l : list A) :
  may_precede cmp z x -> HdRel (may_precede cmp) z l ->
  HdRel (may_precede cmp) z (sort_insert cmp x l).
Proof.
  intros Hzx Hz. destruct l as [|y l]; simpl; [by constructor|].
  destruct (0 <? SortCompare cmp x y); constructor; [|done].
  by inversion Hz.
Qed.

Lemma sort_insert_Sorted (x : A) (l : list A) :
  P x -> Forall P l -> Sorted (may_precede cmp) l ->
  Sorted (may_precede cmp) (sort_insert cmp x l).
Proof.
  intros Hx HP Hs. induction Hs as [|y l Hs IH Hhd]; simpl.
  - repeat constructor.
  - inversion HP as [|? ? Hy HPl]; subst.
    destruct (0 <? SortCompare cmp x y) eqn:Hc.
    + apply Z.ltb_lt in Hc.
      constructor; [by apply IH|].
      apply sort_insert_HdRel; [|done].
      by apply cmp_flip.
    + apply Z.ltb_ge in Hc.
      constructor; [by constructor|]. by constructor.
Qed.

Lemma Array_sort_Sorted (l : list A) :
  Forall P l -> Sorted (may_precede cmp) (Array_sort cmp l).
Proof.
  induction 1 as [|x l Hx HP IH]; [constructor|].
  unfold Array_sort in *. simpl.
  apply sort_insert_Sorted; [done| |done].
  fold (Array_sort cmp l). by rewrite Array_sort_perm.
Qed.
End Sortedness.

Lemma Sorted_adjacent {A} (R : A -> A -> Prop) (l : list A) :
  Sorted R l ->
  forall (i : nat) a b, l !! i = Some a -> l !! S i = Some b -> R a b.
Proof.
  induction 1 as [|x l Hs IH Hhd]; intros i a b Ha Hb; [done|].
  destruct i as [|i]; simpl in *.
  - injection Ha as ->. destruct l as [|y l]; [done|].
    simpl in Hb. injection Hb as ->. by inversion Hhd.
  - by eapply IH.
Qed.

Lemma SortCompare_well_formed (a b : Question) :
  well_formed a -> well_formed b ->
  exists pa pb ta tb,
    statusPriority (status a) = Num pa /\ statusPriority (status b) = Num pb /\
    Date_getTime (created_at a) = Num ta /\ Date_getTime (created_at b) = Num tb /\
    SortCompare compareQuestions a b = (if pa - pb =? 0 then tb - ta else pa - pb).
Proof.
  intros [Hpa Hta] [Hpb Htb]. unfold SortCompare, compareQuestions.
  destruct (statusPriority (status a)) as [|pa]; [done|].
  destruct (statusPriority (status b)) as [|pb]; [done|].
  destruct (Date_getTime (created_at a)) as [|ta]; [done|].
  destruct (Date_getTime (created_at b)) as [|tb]; [done|].
  exists pa, pb, ta, tb. simpl. by destruct (pa - pb =? 0).
Qed.

Lemma compareQuestions_flip (x y : Question) :
  well_formed x -> well_formed y ->
  0 < SortCompare compareQuestions x y -> SortCompare compareQuestions y x <= 0.
Proof.
  intros Hx Hy.
  destruct (SortCompare_well_formed x y Hx Hy)
    as (px & py & tx & ty & Hpx & Hpy & Htx & Hty & ->).
  destruct (SortCompare_well_formed y x Hy Hx)
    as (py' & px' & ty' & tx' & Hpy' & Hpx' & Hty' & Htx' & ->).
  assert (py' = py) as -> by congruence. assert (px' = px) as -> by congruence.
  assert (ty' = ty) as -> by congruence. assert (tx' = tx) as -> by congruence.
  destruct (px - py =? 0) eqn:E1, (py - px =? 0) eqn:E2; lia.
Qed.

Lemma may_precede_in_order (a b : Question) :
  well_formed a -> well_formed b ->
  may_precede compareQuestions a b -> in_order a b.
Proof.
  intros Ha Hb. unfold may_precede.
  destruct (SortCompare_well_formed a b Ha Hb)
    as (pa & pb & ta & tb & Hpa & Hpb & Hta & Htb & ->).
  unfold in_order, js_ge. rewrite Hpa, Hpb, Hta, Htb. simpl.
  destruct (pa - pb =? 0) eqn:E; intros H; split; try lia.
  intros [=]. lia.
Qed.

(** C1, as amended: for every fetched list whose questions all carry a
    status of the priority table (Escalated, Pending, Answered) and a
    creation time that [Date] reads, the questions of the Store after
    [fetchQuestions.fulfilled] are in order at every adjacent pair:
    the priority of the first is at most the priority of the second,
    and on equal priorities the first was created no earlier. *)
Theorem fetched_questions_adjacent_in_order (state : QuestionsState) (l : list Question) :
  Forall well_formed l ->
  adjacent_in_order (questions (fetchQuestions_fulfilled state l)).
Proof.
  intros Hwf i a b Ha Hb. simpl in *. unfold sortQuestions in *.
  assert (Forall well_formed (Array_sort compareQuestions l)) as Hwf'
    by (by rewrite Array_sort_perm).
  apply may_precede_in_order.
  - eapply Forall_lookup_1; eauto.
  - eapply Forall_lookup_1; eauto.
  - eapply Sorted_adjacent; [|exact Ha|exact Hb].
    eapply Array_sort_Sorted with (P := well_formed); [|done].
    apply compareQuestions_flip.
Qed.

(** *** Upsert, counters and the selected question *)

Lemma entries_with_id_absent (id : Z) (l : list Question) :
  (forall q0, q0 ∈ l -> question_id q0 <> id) -> entries_with_id id l = [].
Proof.
  unfold entries_with_id. induction l as [|x l IH]; intros H; [done|].
  rewrite filter_cons_False; [|apply H; by left].
  apply IH. intros q0 Hq0. apply H. by right.
Qed.

Lemma addQuestion_perm (state : QuestionsState) (q : Question) :
  questions (addQuestion state q) ≡ₚ q :: questions state.
Proof. exact (Array_sort_perm compareQuestions (q :: questions state)). Qed.

(** C2, as amended: [addQuestion] never overwrites. The collection after
    [addQuestion(q)] holds [q] and every earlier entry (it is a
    rearrangement of [q] put before the earlier collection), so the
    number of entries with [q]'s identifier grows by exactly one; the
    collection holds exactly one entry with that identifier, equal to
    [q], when no entry with that identifier was present before. *)
Theorem addQuestion_adds_one_entry (state : QuestionsState) (q : Question) :
  questions (addQuestion state q) ≡ₚ q :: questions state /\
  length (entries_with_id (question_id q) (questions (addQuestion state q)))
    = S (length (entries_with_id (question_id q) (questions state))) /\
  ((forall q0, q0 ∈ questions state -> question_id q0 <> question_id q) ->
   entries_with_id (question_id q) (questions (addQuestion state q)) = [q]).
Proof.
  pose proof (addQuestion_perm state q) as Hp.
  assert (entries_with_id (question_id q) (questions (addQuestion state q))
            ≡ₚ q :: entries_with_id (question_id q) (questions state)) as Hf.
  { unfold entries_with_id. rewrite Hp. by rewrite filter_cons_True. }
  split_and!; [done| |].
  - by rewrite Hf.
  - intros Habs. rewrite (entries_with_id_absent _ _ Habs) in Hf.
    by apply Permutation_singleton_r.
Qed.

Lemma round_double_exact (z : Z) :
  Z.abs z <= 9007199254740992 -> round_double z = z.
Proof.
  intros H. unfold round_double. by rewrite (proj2 (Z.leb_le _ _) H).
Qed.

(** C3, as amended: [addResponse(r)] bumps [response_count] of the Question
    that [find] returns for [r.question_id], the first entry with that
    identifier, and touches no other entry; the count grows by exactly 1
    when it is a safe integer (at most 2^53 - 1 in absolute value), the
    sum being a double; when no entry has that identifier the Question
    collection is unchanged. *)
Theorem addResponse_counter (state : QuestionsState) (r : Response) :
  ((exists q, q ∈ questions state /\ question_id q = r_question_id r) ->
   exists (i : nat) (q q' : Question),
     questions state !! i = Some q /\ question_id q = r_question_id r /\
     (forall (j : nat) q0, questions state !! j = Some q0 -> (j < i)%nat ->
                           question_id q0 <> r_question_id r) /\
     questions (addResponse state r) !! i = Some q' /\
     (Z.abs (response_count q) <= MAX_SAFE_INTEGER ->
      response_count q' = response_count q + 1) /\
     question_id q' = question_id q /\ message q' = message q /\
     status q' = status q /\ created_at q' = created_at q /\
     guest_name q' = guest_name q /\ username q' = username q /\
     length (questions (addResponse state r)) = length (questions state) /\
     (forall j : nat, j <> i ->
                      questions (addResponse state r) !! j = questions state !! j)) /\
  ((forall q, q ∈ questions state -> question_id q <> r_question_id r) ->
   questions (addResponse state r) = questions state).
Proof.
  split.
  - intros (q0 & Hin & Hid). simpl. unfold find.
    destruct (list_find _ (questions state)) as [[i q]|] eqn:Hfind.
    + apply list_find_Some in Hfind as (Hi & Hq & Hleast).
      exists i, q, (bump_response_count q).
      split_and!; try done.
      * apply list_lookup_insert_eq. by eapply lookup_lt_Some.
      * intros Hsafe. simpl. apply round_double_exact.
        unfold MAX_SAFE_INTEGER in Hsafe. lia.
      * apply length_insert.
      * intros j Hne. by apply list_lookup_insert_ne.
    + apply list_find_None in Hfind.
      rewrite Forall_forall in Hfind. by destruct (Hfind q0 Hin).
  - intros Habs. simpl. unfold find.
    destruct (list_find _ (questions state)) as [[i q]|] eqn:Hfind; [|done].
    apply list_find_Some in Hfind as (Hi & Hq & _).
    destruct (Habs q); [|done]. by eapply list_elem_of_lookup_2.
Qed.

(** C4: in a state whose selected question is not null, [updateQuestion(q)]
    with [q.question_id] equal to the identifier of the selected question
    leaves [q] itself as the selected question. *)
Theorem updateQuestion_refreshes_selected (state : QuestionsState) (sel q : Question) :
  selectedQuestion state = Some sel ->
  question_id q = question_id sel ->
  selectedQuestion (updateQuestion state q) = Some q.
Proof.
  intros Hsel Hid. unfold updateQuestion. simpl. rewrite Hsel.
  by rewrite bool_decide_eq_true_2.
Qed.

(** C5, as amended: when no Question of the collection has [q]'s
    identifier, [updateQuestion(q)] returns (it is a total function) and
    leaves the questions, the responses, the loading flag and the error
    unchanged; the selected question becomes [q] when it is not null and
    carries [q]'s identifier, and is unchanged otherwise, in which case
    the whole state is unchanged. *)
Theorem updateQuestion_absent (state : QuestionsState) (q : Question) :
  (forall q0, q0 ∈ questions state -> question_id q0 <> question_id q) ->
  questions (updateQuestion state q) = questions state /\
  responses (updateQuestion state q) = responses state /\
  loading (updateQuestion state q) = loading state /\
  error (updateQuestion state q) = error state /\
  (forall sel, selectedQuestion state = Some sel ->
               question_id sel = question_id q ->
               selectedQuestion (updateQuestion state q) = Some q) /\
  ((forall sel, selectedQuestion state = Some sel ->
                question_id sel <> question_id q) ->
   updateQuestion state q = state).
Proof.
  intros Habs.
  assert (findIndex (question_id q) (questions state) = None) as Hnone.
  { unfold findIndex.
    destruct (list_find _ (questions state)) as [[i q0]|] eqn:Hfind; [|done].
    apply list_find_Some in Hfind as (Hi & Hq & _).
    destruct (Habs q0); [|done]. by eapply list_elem_of_lookup_2. }
  unfold updateQuestion. rewrite Hnone. simpl. split_and!; try done.
  - intros sel -> Hid. by rewrite bool_decide_eq_true_2.
  - intros Hsel. destruct state as [qs [sel|] rs ld er]; simpl in *; [|done].
    rewrite bool_decide_eq_false_2; [done|]. by apply Hsel.
Qed.

(** *** The Action Layer *)

(** C6: the fulfilled transitions of create-question and create-response
    set the loading flag to false and change nothing else: the questions
    and the responses are those of before (the created entity is not
    inserted), and so are the selected question and the error. *)
Theorem creation_fulfilled_only_clears_loading
    (state : QuestionsState) (q : Question) (r : Response) :
  (loading (reducer state (CreateQuestionFulfilled q)) = false /\
   questions (reducer state (CreateQuestionFulfilled q)) = questions state /\
   responses (reducer state (CreateQuestionFulfilled q)) = responses state /\
   selectedQuestion (reducer state (CreateQuestionFulfilled q)) = selectedQuestion state /\
   error (reducer state (CreateQuestionFulfilled q)) = error state) /\
  (loading (reducer state (CreateResponseFulfilled r)) = false /\
   questions (reducer state (CreateResponseFulfilled r)) = questions state /\
   responses (reducer state (CreateResponseFulfilled r)) = responses state /\
   selectedQuestion (reducer state (CreateResponseFulfilled r)) = selectedQuestion state /\
   error (reducer state (CreateResponseFulfilled r)) = error state).
Proof. by split_and!. Qed.

(** C10: [fetchQuestions.fulfilled] replaces the questions by the sorted
    payload and sets loading to false; the selected question, the
    responses and the error are those of before. The selected question
    is changed by [updateQuestion] and [setSelectedQuestion] only, so
    after a refetch it can differ from the entry of the list that carries
    its identifier. *)
Theorem fetchQuestions_fulfilled_frame :
  (forall state l,
     questions (reducer state (FetchQuestionsFulfilled l)) = sortQuestions l /\
     loading (reducer state (FetchQuestionsFulfilled l)) = false /\
     selectedQuestion (reducer state (FetchQuestionsFulfilled l)) = selectedQuestion state /\
     responses (reducer state (FetchQuestionsFulfilled l)) = responses state /\
     error (reducer state (FetchQuestionsFulfilled l)) = error state) /\
  (forall state a,
     selectedQuestion (reducer state a) <> selectedQuestion state ->
     (exists q, a = UpdateQuestion q) \/ (exists x, a = SetSelectedQuestion x)) /\
  (exists state l sel q,
     selectedQuestion state = Some sel /\
     selectedQuestion (reducer state (FetchQuestionsFulfilled l)) = Some sel /\
     q ∈ questions (reducer state (FetchQuestionsFulfilled l)) /\
     question_id q = question_id sel /\ q <> sel).
Proof.
  split_and!.
  - intros state l. by split_and!.
  - intros state a Hne. destruct a; simpl in Hne; try done; eauto.
  - exists (setSelectedQuestion initialState (Some q_pending)),
           [q_pending_later], q_pending, q_pending_later.
    split_and!; try done. simpl. apply list_elem_of_singleton. done.
Qed.

(** *** The Message Router *)

Lemma onmessage_unrouted (data : string) (state : QuestionsState) (out : list LogEntry) :
  (JSON_parse data = None \/ forall ty, recognised ty -> discriminator data <> Some ty) ->
  exists more, onmessage data state out = Returned state (out ++ more).
Proof.
  intros H. unfold onmessage, onmessage_try, discriminator in *.
  destruct (JSON_parse data) as [m|] eqn:Hparse; simpl in *.
  2:{ by eexists. }
  destruct H as [H|H]; [done|].
  destruct (Get m "type") as [ty|] eqn:Hty.
  2:{ eexists. by rewrite <- app_assoc. }
  assert (forall s, ty = Val (JString s) ->
            String.eqb s "new_question" = false /\
            String.eqb s "question_updated" = false /\
            String.eqb s "new_response" = false) as Hs.
  { intros s ->. split_and!; apply String.eqb_neq; intros ->;
      eapply H; try reflexivity; unfold recognised; auto. }
  destruct ty as [|[| | |s| |]]; try (eexists; by rewrite <- app_assoc).
  destruct (Hs s eq_refl) as (-> & -> & ->).
  eexists. by rewrite <- app_assoc.
Qed.

(** C7: a push whose payload does not parse, or whose [type] is none of
    [new_question], [question_updated], [new_response], is dropped: the
    handler returns normally with the Store unchanged, having only
    written to the console; as an event of an open connection it leaves
    the Store, the sockets, the timers and the refs of the hook as they
    were. *)
Theorem unrouted_push_is_dropped (data : string) :
  (JSON_parse data = None \/ forall ty, recognised ty -> discriminator data <> Some ty) ->
  (forall state out,
     exists more, onmessage data state out = Returned state (out ++ more)) /\
  (forall env w ws,
     sockets w !! ws = Some OPEN ->
     exists w', step env w (Received ws data) = Some w' /\
                store w' = store w /\ sockets w' = sockets w /\
                timers w' = timers w /\ next_timer w' = next_timer w /\
                wsRef w' = wsRef w /\
                reconnectTimeoutRef w' = reconnectTimeoutRef w /\
                isConnecting w' = isConnecting w).
Proof.
  intros H. split.
  - intros state out. by apply onmessage_unrouted.
  - intros env w ws Hopen. simpl. rewrite bool_decide_eq_true_2 by done.
    destruct (onmessage_unrouted data (store w) (console w) H) as [more ->].
    eexists. by split_and!.
Qed.

(** *** The Connection Manager *)

Lemma connect_policy_skip (env : Env) (w : World) :
  isApiHttp env = true -> isPageHttps env = true ->
  connect env w = console_write warn_websocket_disabled w.
Proof. intros Ha Hp. unfold connect. by rewrite Ha, Hp. Qed.

Lemma step_channel_skipped (env : Env) (w w' : World) (ev : Event) :
  isApiHttp env = true -> isPageHttps env = true ->
  channel_skipped w -> step env w ev = Some w' -> channel_skipped w'.
Proof.
  intros Ha Hp (Hs & Ht & Hn & Hw & Hr) Hstep.
  destruct ev as [| |t|ws|ws|ws|ws data|a]; simpl in Hstep.
  - rewrite connect_policy_skip in Hstep by done.
    injection Hstep as <-. by split_and!.
  - unfold cleanup, clear_reconnect in Hstep. rewrite Hr, Hw in Hstep.
    injection Hstep as <-. by split_and!.
  - rewrite Ht in Hstep. rewrite bool_decide_eq_false_2 in Hstep; [done|].
    apply not_elem_of_nil.
  - rewrite Hs in Hstep. by rewrite bool_decide_eq_false_2 in Hstep.
  - by rewrite Hs in Hstep.
  - by rewrite Hs in Hstep.
  - rewrite Hs in Hstep. by rewrite bool_decide_eq_false_2 in Hstep.
  - injection Hstep as <-. by split_and!.
Qed.

Lemma run_channel_skipped (env : Env) (evs : list Event) (w w' : World) :
  isApiHttp env = true -> isPageHttps env = true ->
  channel_skipped w -> run env w evs = Some w' -> channel_skipped w'.
Proof.
  intros Ha Hp. revert w. induction evs as [|ev evs IH]; intros w Hw Hrun; simpl in *.
  - by injection Hrun as <-.
  - destruct (step env w ev) as [w1|] eqn:Hstep; [|done].
    eapply IH; [|done]. by eapply step_channel_skipped.
Qed.

(** C8: when the API origin starts with [http://] and the page is served
    over [https:], a call to [connect] only writes the warning: it
    creates no socket, schedules no timeout and changes no ref; and after
    any run of events of the session no socket has been created, no
    timeout is pending and none was ever scheduled. *)
Theorem policy_skip_is_permanent (env : Env) :
  isApiHttp env = true -> isPageHttps env = true ->
  (forall w,
     connect env w = console_write warn_websocket_disabled w /\
     sockets (connect env w) = sockets w /\
     timers (connect env w) = timers w /\
     sockets_created w (connect env w) = 0%nat /\
     timers_scheduled w (connect env w) = 0%nat /\
     wsRef (connect env w) = wsRef w /\
     reconnectTimeoutRef (connect env w) = reconnectTimeoutRef w /\
     isConnecting (connect env w) = isConnecting w) /\
  (forall evs w,
     run env initialWorld evs = Some w ->
     sockets w = [] /\ timers w = [] /\
     sockets_created initialWorld w = 0%nat /\
     timers_scheduled initialWorld w = 0%nat).
Proof.
  intros Ha Hp. split.
  - intros w. rewrite connect_policy_skip by done.
    unfold sockets_created, timers_scheduled. simpl. split_and!; try done; lia.
  - intros evs w Hrun.
    assert (channel_skipped initialWorld) as H0 by (by split_and!).
    destruct (run_channel_skipped env evs _ _ Ha Hp H0 Hrun) as (Hs & Ht & Hn & _).
    unfold sockets_created, timers_scheduled. rewrite Hs, Ht, Hn. by split_and!.
Qed.

(** *** Scoping of the responses *)

(** C9, as amended: the Store does not tie the responses to the selected
    question. From a state in which every response belongs to the
    selected question, every operation other than [addResponse],
    [setSelectedQuestion] and [fetchResponses.fulfilled] keeps it so;
    [addResponse(r)] keeps it so exactly when no question is selected or
    [r.question_id] is the selected identifier; [setSelectedQuestion(x)]
    exactly when [x] is null or every response held belongs to [x];
    [fetchResponses.fulfilled(list)] exactly when no question is selected
    or every response of the list belongs to the selected question. *)
Theorem scoping_by_operation (state : QuestionsState) :
  scoped state ->
  (forall a,
     match a with
     | AddResponse _ | SetSelectedQuestion _ | FetchResponsesFulfilled _ => False
     | _ => True
     end -> scoped (reducer state a)) /\
  (forall r,
     scoped (reducer state (AddResponse r)) <->
     (forall sel, selectedQuestion state = Some sel ->
                  r_question_id r = question_id sel)) /\
  (forall x,
     scoped (reducer state (SetSelectedQuestion x)) <->
     (forall sel, x = Some sel ->
                  forall r, r ∈ responses state -> r_question_id r = question_id sel)) /\
  (forall l,
     scoped (reducer state (FetchResponsesFulfilled l)) <->
     (forall sel, selectedQuestion state = Some sel ->
                  forall r, r ∈ l -> r_question_id r = question_id sel)).
Proof.
  intros Hsc. split_and!.
  - intros a Ha. destruct a; try done; try exact Hsc.
    intros sel Hsel r Hr. simpl in *.
    destruct (selectedQuestion state) as [sel0|] eqn:E; [|done].
    case_bool_decide as Hid.
    + injection Hsel as <-. rewrite <- Hid. by eapply Hsc.
    + injection Hsel as <-. by eapply Hsc.
  - intros r. split.
    + intros H sel Hsel. apply (H sel Hsel). simpl.
      apply elem_of_app. right. by apply list_elem_of_singleton.
    + intros H sel Hsel r0 Hr0. simpl in *.
      apply elem_of_app in Hr0 as [Hr0|Hr0%list_elem_of_singleton].
      * by eapply Hsc.
      * subst. by apply H.
  - intros x. done.
  - intros l. done.
Qed.

(** ** Further properties of the Store *)

Lemma sort_insert_filter {A} (cmp : A -> A -> number) (P : A -> Prop)
    `{forall x, Decision (P x)} (x : A) (l : list A) :
  (forall a b, P a -> P b -> SortCompare cmp a b <= 0) ->
  filter P (sort_insert cmp x l) = filter P (x :: l).
Proof.
  intros Hle. induction l as [|y l IH]; simpl; [done|].
  destruct (0 <? SortCompare cmp x y) eqn:Hc; [|done].
  apply Z.ltb_lt in Hc.
  rewrite (filter_cons P y), IH, !(filter_cons P x), (filter_cons P y).
  destruct (decide (P x)) as [Hx|Hx], (decide (P y)) as [Hy|Hy]; try done.
  specialize (Hle x y Hx Hy). lia.
Qed.

Lemma Array_sort_filter {A} (cmp : A -> A -> number) (P : A -> Prop)
    `{forall x, Decision (P x)} (l : list A) :
  (forall a b, P a -> P b -> SortCompare cmp a b <= 0) ->
  filter P (Array_sort cmp l) = filter P l.
Proof.
  intros Hle. induction l as [|x l IH]; [done|].
  unfold Array_sort in *. simpl. rewrite sort_insert_filter by done.
  by rewrite !filter_cons, IH.
Qed.

Lemma Array_sort_sorted_id {A} (cmp : A -> A -> number) (l : list A) :
  Sorted (may_precede cmp) l -> Array_sort cmp l = l.
Proof.
  induction 1 as [|x l Hs IH Hhd]; [done|].
  unfold Array_sort in *. simpl. rewrite IH.
  destruct Hhd as [|y l' Hxy]; simpl; [done|].
  unfold may_precede in Hxy. by rewrite (proj2 (Z.ltb_ge _ _) Hxy).
Qed.

Lemma SortCompare_same_key (a b : Question) :
  sort_key a = sort_key b -> SortCompare compareQuestions a b = 0.
Proof.
  unfold sort_key. intros [= Hs Hc]. unfold SortCompare, compareQuestions.
  rewrite Hs, Hc.
  destruct (statusPriority (status b)) as [|p]; simpl; [done|].
  rewrite Z.sub_diag. simpl.
  destruct (Date_getTime (created_at b)) as [|t]; simpl; [done|].
  apply Z.sub_diag.
Qed.

Lemma sortQuestions_in_order (l : list Question) :
  Forall well_formed l ->
  Forall well_formed (sortQuestions l) /\ adjacent_in_order (sortQuestions l).
Proof.
  intros Hwf. unfold sortQuestions.
  assert (Forall well_formed (Array_sort compareQuestions l)) as Hwf'
    by (by rewrite Array_sort_perm).
  split; [done|]. intros i a b Ha Hb.
  apply may_precede_in_order.
  - eapply Forall_lookup_1; eauto.
  - eapply Forall_lookup_1; eauto.
  - eapply Sorted_adjacent; [|exact Ha|exact Hb].
    eapply Array_sort_Sorted with (P := well_formed); [|done].
    apply compareQuestions_flip.
Qed.

Lemma in_order_sort_key (a b a' b' : Question) :
  sort_key a' = sort_key a -> sort_key b' = sort_key b ->
  in_order a b -> in_order a' b'.
Proof.
  unfold sort_key, in_order. intros [= Hsa Hca] [= Hsb Hcb].
  by rewrite Hsa, Hca, Hsb, Hcb.
Qed.

Lemma adjacent_in_order_sort_keys (l l' : list Question) :
  sort_key <$> l' = sort_key <$> l ->
  adjacent_in_order l -> adjacent_in_order l'.
Proof.
  intros Hk Hl i a' b' Ha' Hb'.
  assert (forall (j : nat) x', l' !! j = Some x' ->
            exists x, l !! j = Some x /\ sort_key x' = sort_key x) as Hback.
  { intros j x' Hx'.
    assert ((sort_key <$> l) !! j = Some (sort_key x')) as H1
      by (by rewrite <- Hk, list_lookup_fmap, Hx').
    rewrite list_lookup_fmap in H1.
    destruct (l !! j) as [x|]; simpl in H1; [|done].
    exists x. split; [done|]. congruence. }
  destruct (Hback _ _ Ha') as (a & Ha & Hka).
  destruct (Hback _ _ Hb') as (b & Hb & Hkb).
  eapply in_order_sort_key; [exact Hka|exact Hkb|]. by eapply Hl.
Qed.

Lemma well_formed_sort_key (q q' : Question) :
  sort_key q' = sort_key q -> well_formed q -> well_formed q'.
Proof. unfold sort_key, well_formed. intros [= Hs Hc]. by rewrite Hs, Hc. Qed.

Lemma find_Some_inv (id : Z) (qs : list Question) (i : nat) (q : Question) :
  find id qs = Some (i, q) -> qs !! i = Some q /\ question_id q = id.
Proof. unfold find. intros (? & ? & _)%list_find_Some. done. Qed.

Lemma findIndex_Some_inv (id : Z) (qs : list Question) (i : nat) :
  findIndex id qs = Some i -> exists q, qs !! i = Some q /\ question_id q = id.
Proof.
  unfold findIndex. destruct (list_find _ qs) as [[j q]|] eqn:E; [|done].
  intros [= <-]. apply list_find_Some in E as (? & ? & _). eauto.
Qed.

Lemma findIndex_present (id : Z) (qs : list Question) :
  (exists q0, q0 ∈ qs /\ question_id q0 = id) -> exists i, findIndex id qs = Some i.
Proof.
  intros (q0 & Hin & Hid). unfold findIndex.
  destruct (list_find _ qs) as [[j q]|] eqn:E; [by eexists|].
  apply list_find_None in E. rewrite Forall_forall in E. by destruct (E q0 Hin).
Qed.

Lemma addResponse_fmap {B} (f : Question -> B) (state : QuestionsState) (r : Response) :
  (forall q, f (bump_response_count q) = f q) ->
  f <$> questions (addResponse state r) = f <$> questions state.
Proof.
  intros Hf. simpl.
  destruct (find _ (questions state)) as [[i q]|] eqn:E; [|done].
  apply find_Some_inv in E as [Hi _].
  rewrite list_fmap_insert, Hf. apply list_insert_id.
  by rewrite list_lookup_fmap, Hi.
Qed.

(** X1: [sortQuestions] only rearranges: whatever the statuses and dates,
    its result holds exactly the questions of its argument, each as often
    as the argument does. *)
Theorem sortQuestions_permutation (l : list Question) :
  sortQuestions l ≡ₚ l /\
  length (sortQuestions l) = length l /\
  (forall q, q ∈ sortQuestions l <-> q ∈ l).
Proof.
  assert (sortQuestions l ≡ₚ l) as Hp by apply Array_sort_perm.
  split_and!; [done|by rewrite Hp|]. intros q. by rewrite Hp.
Qed.

(** X2: on well-formed questions [sortQuestions] is stable on equal keys:
    the questions that carry one given status and one given [created_at]
    string stand in the result in the order they had in the argument. *)
Theorem sortQuestions_stable (s c : string) (l : list Question) :
  Forall well_formed l ->
  filter (fun q => sort_key q = (s, c)) (sortQuestions l)
  = filter (fun q => sort_key q = (s, c)) l.
Proof.
  intros _. apply Array_sort_filter. intros a b Ha Hb.
  rewrite SortCompare_same_key; [done|congruence].
Qed.

Lemma in_order_may_precede (a b : Question) :
  well_formed a -> well_formed b ->
  in_order a b -> may_precede compareQuestions a b.
Proof.
  intros Ha Hb. unfold may_precede.
  destruct (SortCompare_well_formed a b Ha Hb)
    as (pa & pb & ta & tb & Hpa & Hpb & Hta & Htb & ->).
  unfold in_order, js_ge. rewrite Hpa, Hpb, Hta, Htb. simpl.
  intros [Hle Htie]. destruct (pa - pb =? 0) eqn:E; [|lia].
  apply Z.eqb_eq in E. assert (pa = pb) as -> by lia.
  specialize (Htie eq_refl). lia.
Qed.

Lemma well_formed_in_order_Sorted (l : list Question) :
  Forall well_formed l -> adjacent_in_order l ->
  Sorted (may_precede compareQuestions) l.
Proof.
  induction 1 as [|x l Hx Hl IH]; intros Hord; [constructor|].
  constructor.
  - apply IH. intros i a b Ha Hb. by apply (Hord (S i)).
  - destruct Hl as [|y l Hy Hl]; constructor.
    apply in_order_may_precede; [done..|]. by apply (Hord 0%nat).
Qed.

(** X3: on well-formed questions re-sorting changes nothing: a list that
    is in order at every adjacent pair is returned as it is, and sorting
    twice is sorting once. *)
Theorem sortQuestions_idempotent (l : list Question) :
  Forall well_formed l ->
  (adjacent_in_order l -> sortQuestions l = l) /\
  sortQuestions (sortQuestions l) = sortQuestions l.
Proof.
  intros Hwf. split.
  - intros Hord. apply Array_sort_sorted_id. by apply well_formed_in_order_Sorted.
  - apply Array_sort_sorted_id.
    eapply Array_sort_Sorted with (P := well_formed); [|done].
    apply compareQuestions_flip.
Qed.

Lemma reducer_ordered (state : QuestionsState) (a : Action) :
  ordered state -> payload_well_formed a -> ordered (reducer state a).
Proof.
  intros [Hwf Hord] Ha. destruct a; try (by split); simpl in Ha.
  - apply sortQuestions_in_order. by constructor.
  - unfold ordered. simpl.
    destruct (findIndex _ (questions state)) as [i|]; [|by split].
    apply sortQuestions_in_order. by apply Forall_insert.
  - assert (sort_key <$> questions (addResponse state payload)
            = sort_key <$> questions state) as Hk
      by (by apply addResponse_fmap).
    split.
    + apply Forall_lookup. intros i q' Hq'.
      assert ((sort_key <$> questions state) !! i = Some (sort_key q')) as H1.
      { rewrite <- Hk, list_lookup_fmap. unfold reducer in Hq'. by rewrite Hq'. }
      rewrite list_lookup_fmap in H1.
      destruct (questions state !! i) as [q|] eqn:Hq; simpl in H1; [|done].
      eapply (well_formed_sort_key q); [congruence|].
      eapply Forall_lookup_1; eauto.
    + by eapply adjacent_in_order_sort_keys.
  - by apply sortQuestions_in_order.
Qed.

(** X4: the order is an invariant of the Store. After any run of actions
    whose question payloads are well formed, the questions of the Store
    are well formed and every adjacent pair is in order (status priority
    first, newest first on a tie); every single action keeps it so. *)
Theorem store_stays_ordered (actions : list Action) :
  Forall payload_well_formed actions ->
  ordered (run_actions actions) /\
  (forall a, payload_well_formed a -> ordered (reducer (run_actions actions) a)).
Proof.
  intros Hall.
  assert (forall s, ordered s -> ordered (foldl reducer s actions)) as Hrun.
  { induction Hall as [|a actions Ha _ IH]; intros s Hs; [done|].
    simpl. apply IH. by apply reducer_ordered. }
  assert (ordered (run_actions actions)) as H.
  { apply Hrun. split; [constructor|]. by intros i a b. }
  split; [done|]. intros a Ha. by apply reducer_ordered.
Qed.

(** X5: [updateQuestion(q)] never changes the number of questions. When a
    question with [q]'s identifier is present, [q] is in the collection
    afterwards, the number of entries with that identifier is unchanged,
    and the questions with another identifier are the same as before. *)
Theorem updateQuestion_present (state : QuestionsState) (q : Question) :
  length (questions (updateQuestion state q)) = length (questions state) /\
  ((exists q0, q0 ∈ questions state /\ question_id q0 = question_id q) ->
   q ∈ questions (updateQuestion state q) /\
   length (entries_with_id (question_id q) (questions (updateQuestion state q)))
     = length (entries_with_id (question_id q) (questions state)) /\
   (forall q1, question_id q1 <> question_id q ->
               q1 ∈ questions (updateQuestion state q) <-> q1 ∈ questions state)).
Proof.
  split.
  - unfold updateQuestion. simpl.
    destruct (findIndex _ (questions state)) as [i|]; [|done].
    unfold sortQuestions. by rewrite Array_sort_length, length_insert.
  - intros Hex. destruct (findIndex_present _ _ Hex) as [i Hi].
    destruct (findIndex_Some_inv _ _ _ Hi) as (q0 & Hq0 & Hid).
    assert (questions (updateQuestion state q) ≡ₚ <[i:=q]> (questions state)) as Hp.
    { unfold updateQuestion. simpl. rewrite Hi. apply Array_sort_perm. }
    assert (i < length (questions state))%nat as Hlt by (by eapply lookup_lt_Some).
    assert (<[i:=q]> (questions state)
            = take i (questions state) ++ q :: drop (S i) (questions state)) as Hins
      by (by apply insert_take_drop).
    assert (questions state
            = take i (questions state) ++ q0 :: drop (S i) (questions state)) as Hold
      by (symmetry; by apply take_drop_middle).
    split_and!.
    + rewrite Hp, Hins. apply elem_of_app. right. by left.
    + unfold entries_with_id. rewrite Hp, Hins. rewrite Hold at 3.
      rewrite !filter_app, !length_app.
      rewrite (filter_cons_True _ q) by done.
      by rewrite (filter_cons_True _ q0) by done.
    + intros q1 Hne. rewrite Hp, Hins. rewrite Hold at 3.
      rewrite !elem_of_app, !elem_of_cons.
      split; intros [?|[->|?]]; auto; congruence.
Qed.

(** X6: [addResponse] changes no identifier, status or creation date and
    moves no question: the sequences of these fields are the same before
    and after, so a collection in order stays in order without a re-sort. *)
Theorem addResponse_keeps_order (state : QuestionsState) (r : Response) :
  question_id <$> questions (addResponse state r) = question_id <$> questions state /\
  status <$> questions (addResponse state r) = status <$> questions state /\
  created_at <$> questions (addResponse state r) = created_at <$> questions state /\
  (adjacent_in_order (questions state) ->
   adjacent_in_order (questions (addResponse state r))).
Proof.
  split_and!; try (by apply addResponse_fmap).
  apply adjacent_in_order_sort_keys. by apply addResponse_fmap.
Qed.

(** X7: no question is dropped by anything but a full refetch. For every
    action other than [fetchQuestions.fulfilled], every identifier present
    before the action is present after it and the collection does not get
    shorter. *)
Theorem identifiers_never_lost (state : QuestionsState) (a : Action) (id : Z) :
  ~ is_refetch a ->
  (id ∈ question_id <$> questions state ->
   id ∈ question_id <$> questions (reducer state a)) /\
  (length (questions state) <= length (questions (reducer state a)))%nat.
Proof.
  intros Hnr. destruct a; try (by split); simpl in Hnr.
  - pose proof (addQuestion_perm state payload) as Hp. unfold reducer. split.
    + rewrite Hp. intros H. rewrite fmap_cons. by right.
    + rewrite Hp. simpl. lia.
  - unfold reducer, updateQuestion. simpl.
    destruct (findIndex _ (questions state)) as [i|] eqn:Hi; [|by split].
    destruct (findIndex_Some_inv _ _ _ Hi) as (q0 & Hq0 & Hid).
    unfold sortQuestions. rewrite Array_sort_perm, length_insert.
    split; [|done].
    rewrite list_fmap_insert, <- Hid.
    rewrite list_insert_id; [done|]. by rewrite list_lookup_fmap, Hq0.
  - unfold reducer. rewrite addResponse_fmap by done. split; [done|].
    assert (length (question_id <$> questions (addResponse state payload))
            = length (question_id <$> questions state)) as Hl
      by (by rewrite addResponse_fmap).
    rewrite !length_fmap in Hl. lia.
Qed.

(** X8: which actions touch which field. The questions are changed only by
    [addQuestion], [updateQuestion], [addResponse] and
    [fetchQuestions.fulfilled]; the responses only by [addResponse] and
    [fetchResponses.fulfilled]; the error only by [clearError] and by the
    pending and rejected transitions; the loading flag only by the
    transitions of the thunks. In particular [updateQuestionStatus.fulfilled]
    changes no question. *)
Theorem fields_changed_by (state : QuestionsState) (a : Action) :
  (questions (reducer state a) <> questions state -> changes_questions a) /\
  (responses (reducer state a) <> responses state -> changes_responses a) /\
  (error (reducer state a) <> error state -> changes_error a) /\
  (loading (reducer state a) <> loading state -> changes_loading a).
Proof. destruct a; simpl; by split_and!. Qed.

(** ** Further properties of the Message Router *)

(** X9: a push never touches the request flags. Whatever the payload, when
    the handler returns a Store, its loading flag and its error are those
    of before, and the console has grown by at least one entry. *)
Theorem push_keeps_flags (data : string) (state state' : QuestionsState)
    (out out' : list LogEntry) :
  onmessage data state out = Returned state' out' ->
  loading state' = loading state /\ error state' = error state /\
  exists more, out' = out ++ more /\ more <> [].
Proof.
  unfold onmessage, onmessage_try.
  destruct (JSON_parse data) as [m|]; simpl.
  2:{ intros [= <- <-]. split_and!; try done. by eexists. }
  destruct (Get m "type") as [ty|].
  2:{ intros [= <- <-]. split_and!; try done.
      eexists. by rewrite <- app_assoc. }
  assert (forall t, Returned state ((out ++ [log_message_received m]) ++ [log_unknown_type t])
                    = Returned state' out' ->
            loading state' = loading state /\ error state' = error state /\
            exists more, out' = out ++ more /\ more <> []) as Hunknown.
  { intros t [= <- <-]. split_and!; try done. eexists. by rewrite <- app_assoc. }
  destruct ty as [|[| | |s| |]]; try apply Hunknown.
  destruct (String.eqb s "new_question").
  { destruct (Get m "data" ≫= asQuestion); [|done].
    intros [= <- <-]. split_and!; try done. by eexists. }
  destruct (String.eqb s "question_updated").
  { destruct (Get m "data" ≫= asQuestion); [|done].
    intros [= <- <-]. split_and!; try done. by eexists. }
  destruct (String.eqb s "new_response").
  { destruct (Get m "data" ≫= asResponse); [|done].
    intros [= <- <-]. split_and!; try done. by eexists. }
  apply Hunknown.
Qed.

(** X10: the routing table. A message that parses and whose [type] is
    [new_question], [question_updated] or [new_response] is handed, with
    its [data], to [addQuestion], [updateQuestion] or [addResponse]
    respectively and to no other reducer; the only console entry is the
    one of the reception. *)
Theorem recognised_push_is_routed (data : string) (message : json)
    (state : QuestionsState) (out : list LogEntry) :
  JSON_parse data = Some message ->
  (forall q, Get message "type" = Some (Val (JString "new_question")) ->
             Get message "data" ≫= asQuestion = Some q ->
             onmessage data state out
             = Returned (addQuestion state q) (out ++ [log_message_received message])) /\
  (forall q, Get message "type" = Some (Val (JString "question_updated")) ->
             Get message "data" ≫= asQuestion = Some q ->
             onmessage data state out
             = Returned (updateQuestion state q) (out ++ [log_message_received message])) /\
  (forall r, Get message "type" = Some (Val (JString "new_response")) ->
             Get message "data" ≫= asResponse = Some r ->
             onmessage data state out
             = Returned (addResponse state r) (out ++ [log_message_received message])).
Proof.
  intros Hparse. unfold onmessage, onmessage_try. rewrite Hparse.
  split_and!; intros x Hty Hdata; rewrite Hty; simpl; by rewrite Hdata.
Qed.

(** ** Further properties of the Connection Manager *)

Lemma substring_whole (r : string) : String.substring 0 (String.length r) r = r.
Proof. induction r as [|c r IH]; simpl; [done|]. by rewrite IH. Qed.

Lemma prefix_app_l (p q u : string) :
  String.prefix (p +:+ q) u = true -> String.prefix p u = true.
Proof.
  revert u. induction p as [|a p IH]; intros u.
  - by destruct u.
  - change (String a p +:+ q) with (String a (p +:+ q)).
    destruct u as [|b u]; cbn [String.prefix]; [done|].
    destruct (ascii_dec a b); [apply IH|done].
Qed.

Lemma prefix_https_http (u : string) :
  String.prefix "https" u = true -> String.prefix "http" u = true.
Proof. apply (prefix_app_l "http" "s"). Qed.

Lemma replace_scheme_http (protocol rest : string) :
  replace_scheme protocol ("http://" +:+ rest) = protocol +:+ "://" +:+ rest.
Proof.
  unfold replace_scheme. simpl.
  change (EmptyString +:+ rest) with rest. by rewrite substring_whole.
Qed.

Lemma replace_scheme_https (protocol rest : string) :
  replace_scheme protocol ("https://" +:+ rest) = protocol +:+ "://" +:+ rest.
Proof.
  unfold replace_scheme. simpl.
  change (EmptyString +:+ rest) with rest. by rewrite substring_whole.
Qed.

(** X11: the scheme of the socket follows the page, not the API origin.
    For an API origin [http://rest] or [https://rest] the socket URL is
    [wss://rest/ws] on a page served over [https:] and [ws://rest/ws] on
    any other page: an [https://] origin on an [http:] page is contacted
    over plain [ws://]. *)
Theorem getWebSocketURL_scheme (env : Env) (rest : string) :
  apiUrl env = "http://" +:+ rest \/ apiUrl env = "https://" +:+ rest ->
  getWebSocketURL env
  = (if isPageHttps env then "wss://" else "ws://") +:+ rest +:+ "/ws".
Proof.
  unfold getWebSocketURL.
  intros [-> | ->]; rewrite ?replace_scheme_http, ?replace_scheme_https;
    by destruct (isPageHttps env).
Qed.

(** X12: an API origin that does not begin with [http] (a relative path, a
    [ws://] URL) is not rewritten: the socket URL is the origin followed by
    [/ws], and [connect] does not take it for an insecure origin. *)
Theorem getWebSocketURL_other_scheme (env : Env) :
  String.prefix "http" (apiUrl env) = false ->
  getWebSocketURL env = apiUrl env +:+ "/ws" /\ isApiHttp env = false.
Proof.
  intros Hp. unfold getWebSocketURL, replace_scheme, isApiHttp. rewrite Hp.
  destruct (String.prefix "https" (apiUrl env)) eqn:Hs.
  { apply prefix_https_http in Hs. congruence. }
  split; [done|].
  destruct (String.prefix "http://" (apiUrl env)) eqn:Hh; [|done].
  apply (prefix_app_l "http" "://") in Hh. congruence.
Qed.

(** X14: every close is followed by one reconnect, without a bound on the
    number of retries. In any world, when a socket that is not yet closed
    closes and the timeout set by its [onclose] fires next, exactly one
    new socket is created, connecting and tracked by [wsRef], provided the
    policy gate lets [connect] through and the constructor does not throw. *)
Theorem close_then_timer_reconnects (env : Env) (w : World) (ws : nat) (s : ReadyState) :
  can_open env ->
  sockets w !! ws = Some s -> s <> CLOSED ->
  exists w',
    run env w [Closed ws; TimerFires (next_timer w)] = Some w' /\
    sockets w' = <[ws:=CLOSED]> (sockets w) ++ [CONNECTING] /\
    wsRef w' = Some (length (sockets w)) /\
    isConnecting w' = true /\
    next_timer w' = S (next_timer w) /\
    next_timer w ∉ timers w'.
Proof.
  intros [Hpol Hthrow] Hs Hne.
  assert (step env w (Closed ws)
          = Some (onclose (set_sockets (<[ws:=CLOSED]> (sockets w)) w))) as Hstep.
  { simpl. rewrite Hs. by destruct s. }
  cbn [run]. rewrite Hstep. cbn [step].
  rewrite bool_decide_eq_true_2.
  2:{ simpl. apply elem_of_app. right. by apply list_elem_of_singleton. }
  eexists. split; [reflexivity|].
  unfold connect. rewrite Hpol, Hthrow. simpl.
  rewrite length_insert. split_and!; try done.
  intros [Hn _]%list_elem_of_filter. done.
Qed.

(** X15: the cleanup of the effect does not stop the reconnection. When the
    hook tracks a live socket and is torn down, the close event of the
    socket it has just closed still sets a timeout, which no cleanup
    clears any more; when it fires a new socket is opened. *)
Theorem cleanup_does_not_stop_reconnect (env : Env) (w : World) (ws : nat) (s : ReadyState) :
  can_open env ->
  wsRef w = Some ws -> sockets w !! ws = Some s -> live s ->
  exists w1 w2 w3,
    step env w Unmount = Some w1 /\
    wsRef w1 = None /\ sockets w1 !! ws = Some CLOSING /\
    step env w1 (Closed ws) = Some w2 /\
    next_timer w ∈ timers w2 /\ reconnectTimeoutRef w2 = Some (next_timer w) /\
    step env w2 (TimerFires (next_timer w)) = Some w3 /\
    length (sockets w3) = S (length (sockets w)) /\
    wsRef w3 = Some (length (sockets w)) /\
    sockets w3 !! length (sockets w) = Some CONNECTING.
Proof.
  intros [Hpol Hthrow] Hws Hs Hlive.
  assert (ws < length (sockets w))%nat as Hlt by (by eapply lookup_lt_Some).
  assert (wsRef (clear_reconnect w) = Some ws /\
          sockets (clear_reconnect w) = sockets w /\
          next_timer (clear_reconnect w) = next_timer w) as (Hc1 & Hc2 & Hc3).
  { unfold clear_reconnect. by destruct (reconnectTimeoutRef w). }
  assert (sockets (cleanup w) = alter close ws (sockets w) /\
          wsRef (cleanup w) = None /\ next_timer (cleanup w) = next_timer w)
    as (Hk1 & Hk2 & Hk3).
  { unfold cleanup. rewrite Hc1. simpl. by rewrite Hc2, Hc3. }
  assert (sockets (cleanup w) !! ws = Some CLOSING) as Hclosing.
  { rewrite Hk1, list_lookup_alter_eq, Hs. by destruct Hlive as [-> | ->]. }
  eexists (cleanup w), _, _. split_and!.
  - done.
  - done.
  - done.
  - simpl. by rewrite Hclosing.
  - simpl. rewrite Hk3. apply elem_of_app. right. by apply list_elem_of_singleton.
  - simpl. by rewrite Hk3.
  - cbn [step]. rewrite bool_decide_eq_true_2; [reflexivity|].
    simpl. rewrite Hk3. apply elem_of_app. right. by apply list_elem_of_singleton.
  - unfold connect. rewrite Hpol, Hthrow. simpl.
    rewrite length_app, length_insert, Hk1, length_alter. simpl. lia.
  - unfold connect. rewrite Hpol, Hthrow. simpl.
    by rewrite length_insert, Hk1, length_alter.
  - unfold connect. rewrite Hpol, Hthrow. simpl.
    rewrite lookup_app_r; rewrite length_insert, Hk1, length_alter; [|lia].
    by rewrite Nat.sub_diag.
Qed.

(** ** Relative dates *)

Lemma div_ltb (s d k : Z) : 0 < d -> (s / d <? k) = (s <? k * d).
Proof.
  intros Hd. apply eq_true_iff_eq. rewrite !Z.ltb_lt.
  split; intros H.
  - apply Z.nle_gt. intros Hle.
    assert (d * k <= s) as Hle' by lia.
    apply (Z.div_le_lower_bound s d k) in Hle'; lia.
  - apply Z.div_lt_upper_bound; lia.
Qed.

Lemma formatDistanceToNow_Num (now : Z) (dateString : string) (d : Z) :
  Date_getTime dateString = Num d ->
  formatDistanceToNow now dateString = distance_of_seconds ((now - d) / 1000).
Proof.
  intros Hd. unfold formatDistanceToNow, distance_of_seconds. rewrite Hd.
  cbv zeta. cbn [js_sub js_floor_div js_lt].
  set (s := (now - d) / 1000).
  rewrite !Z.div_div by lia. rewrite !(div_ltb s) by lia.
  repeat match goal with
         | |- context [?a * ?b] =>
             let v := eval vm_compute in (a * b) in change (a * b) with v
         end.
  reflexivity.
Qed.

(** X16: [formatDistanceToNow] by the seconds elapsed. For a date that
    [Date] reads, the text is the one of the whole seconds between the date
    and now: "just now" below one minute (a date in the future included),
    then minutes below 3600 s, hours below 86400 s, days below 30 days,
    months of 30 days below 360 days, and years of 360 days from there on.
    For a string that [Date] does not read the text is "NaN year ago". *)
Theorem formatDistanceToNow_by_seconds (now : Z) (dateString : string) :
  (forall d, Date_getTime dateString = Num d ->
             formatDistanceToNow now dateString
             = distance_of_seconds ((now - d) / 1000)) /\
  (Date_getTime dateString = NaN ->
   formatDistanceToNow now dateString = "NaN year ago").
Proof.
  split.
  - intros d Hd. by apply formatDistanceToNow_Num.
  - intros Hd. unfold formatDistanceToNow. rewrite Hd. reflexivity.
Qed.

(** X17: the count that [formatDistanceToNow] shows is never zero and
    never reaches the next unit. For a date that [Date] reads, less than
    60000 ms before now (or after now) the text is "just now"; from 60000 ms
    on it is a count and a unit with the count at least 1, below 60 for
    minutes, below 24 for hours, below 30 for days and below 12 for months. *)
Theorem formatDistanceToNow_count_bounds (now : Z) (dateString : string) (d : Z) :
  Date_getTime dateString = Num d ->
  (now - d < 60000 -> formatDistanceToNow now dateString = "just now") /\
  (60000 <= now - d ->
   exists n unit,
     formatDistanceToNow now dateString = ago (Num n) unit /\ 1 <= n /\
     ((unit = "minute" /\ n < 60) \/ (unit = "hour" /\ n < 24) \/
      (unit = "day" /\ n < 30) \/ (unit = "month" /\ n < 12) \/ unit = "year")).
Proof.
  intros Hd. rewrite (formatDistanceToNow_Num now dateString d Hd).
  set (s := (now - d) / 1000). unfold distance_of_seconds.
  assert ((s <? 60) = (now - d <? 60000)) as Hs by (apply (div_ltb (now - d) 1000 60); lia).
  split.
  - intros Hlt. rewrite Hs. by rewrite (proj2 (Z.ltb_lt _ _) Hlt).
  - intros Hge. rewrite Hs. rewrite (proj2 (Z.ltb_ge _ _) Hge).
    assert (60 <= s) as Hs60.
    { apply Z.ltb_ge. rewrite Hs. by apply Z.ltb_ge. }
    assert (forall c k, 0 < c -> c <= s -> s < k * c -> 1 <= s / c /\ s / c < k) as Hb.
    { intros c k Hc Hlo Hhi. split.
      - apply Z.div_le_lower_bound; lia.
      - apply Z.div_lt_upper_bound; lia. }
    destruct (s <? 3600) eqn:E2.
    { apply Z.ltb_lt in E2. destruct (Hb 60 60) as [H1 H2]; try lia.
      exists (s / 60), "minute". split_and!; auto 10. }
    apply Z.ltb_ge in E2. destruct (s <? 86400) eqn:E3.
    { apply Z.ltb_lt in E3. destruct (Hb 3600 24) as [H1 H2]; try lia.
      exists (s / 3600), "hour". split_and!; auto 10. }
    apply Z.ltb_ge in E3. destruct (s <? 2592000) eqn:E4.
    { apply Z.ltb_lt in E4. destruct (Hb 86400 30) as [H1 H2]; try lia.
      exists (s / 86400), "day". split_and!; auto 10. }
    apply Z.ltb_ge in E4. destruct (s <? 31104000) eqn:E5.
    { apply Z.ltb_lt in E5. destruct (Hb 2592000 12) as [H1 H2]; try lia.
      exists (s / 2592000), "month". split_and!; auto 10. }
    apply Z.ltb_ge in E5.
    exists (s / 31104000), "year". split_and!; auto 10.
    apply Z.div_le_lower_bound; lia.
Qed.

(** ** The order seen by the page *)

Lemma in_order_trans (a b c : Question) : in_order a b -> in_order b c -> in_order a c.
Proof.
  unfold in_order, js_ge, js_le. intros [Hab Tab] [Hbc Tbc].
  destruct (statusPriority (status a)) as [|pa]; [done|].
  destruct (statusPriority (status b)) as [|pb]; [done|].
  destruct (statusPriority (status c)) as [|pc]; [done|].
  split; [lia|]. intros [= ->].
  assert (pb = pc) as -> by lia.
  specialize (Tab eq_refl). specialize (Tbc eq_refl).
  destruct (Date_getTime (created_at a)) as [|ta],
           (Date_getTime (created_at b)) as [|tb],
           (Date_getTime (created_at c)) as [|tc]; simpl in *; try done. lia.
Qed.

Lemma adjacent_in_order_Sorted (l : list Question) :
  adjacent_in_order l -> Sorted in_order l.
Proof.
  induction l as [|x l IH]; intros H; [constructor|].
  constructor.
  - apply IH. intros i a b Ha Hb. by apply (H (S i)).
  - destruct l as [|y l]; constructor. by apply (H 0%nat).
Qed.

Lemma adjacent_in_order_StronglySorted (l : list Question) :
  adjacent_in_order l -> StronglySorted in_order l.
Proof.
  intros H. apply Sorted_StronglySorted.
  - intros a b c. apply in_order_trans.
  - by apply adjacent_in_order_Sorted.
Qed.

Lemma StronglySorted_filter_keep {A} (R : A -> A -> Prop) (P : A -> Prop)
    `{forall x, Decision (P x)} (l : list A) :
  StronglySorted R l -> StronglySorted R (filter P l).
Proof.
  induction 1 as [|x l Hs IH Hall]; [constructor|].
  rewrite filter_cons. destruct (decide (P x)); [|done].
  constructor; [done|].
  apply Forall_forall. intros y [_ Hy]%list_elem_of_filter.
  rewrite Forall_forall in Hall. by apply Hall.
Qed.

Lemma StronglySorted_lookup_lt {A} (R : A -> A -> Prop) (l : list A) :
  StronglySorted R l ->
  forall (i j : nat) a b, (i < j)%nat -> l !! i = Some a -> l !! j = Some b -> R a b.
Proof.
  induction 1 as [|x l Hs IH Hall]; intros i j a b Hlt Ha Hb; [done|].
  destruct j as [|j]; [lia|]. simpl in Hb.
  destruct i as [|i]; simpl in Ha.
  - injection Ha as ->. rewrite Forall_forall in Hall.
    apply Hall. by eapply list_elem_of_lookup_2.
  - eapply IH; [|done..]. lia.
Qed.

(** X18: the order of the collection is global. In a collection whose
    adjacent pairs are in order, any question stands in order before any
    later one: no Escalated question comes after a Pending or an Answered
    one, however far apart they are. *)
Theorem order_is_global (l : list Question) (i j : nat) (a b : Question) :
  adjacent_in_order l ->
  (i < j)%nat -> l !! i = Some a -> l !! j = Some b -> in_order a b.
Proof.
  intros H. apply StronglySorted_lookup_lt. by apply adjacent_in_order_StronglySorted.
Qed.

(** X19: the status filter of the forum page keeps the order. The filter
    [all] shows the collection as it is; any other filter shows exactly the
    questions with that status, and when the collection is in order the
    questions shown are in order too, that is newest first. *)
Theorem filteredQuestions_in_order (statusFilter : string) (qs : list Question) :
  (statusFilter = "all" -> filteredQuestions statusFilter qs = qs) /\
  (statusFilter <> "all" ->
   forall q, q ∈ filteredQuestions statusFilter qs <-> q ∈ qs /\ status q = statusFilter) /\
  (adjacent_in_order qs ->
   adjacent_in_order (filteredQuestions statusFilter qs) /\
   (statusFilter <> "all" ->
    forall (i : nat) a b,
      filteredQuestions statusFilter qs !! i = Some a ->
      filteredQuestions statusFilter qs !! S i = Some b ->
      js_ge (Date_getTime (created_at a)) (Date_getTime (created_at b)))).
Proof.
  unfold filteredQuestions.
  destruct (String.eqb statusFilter "all") eqn:E.
  - apply String.eqb_eq in E. split_and!; try done.
  - apply String.eqb_neq in E. split_and!; try done.
    + intros _ q. rewrite list_elem_of_filter. apply and_comm.
    + intros Hord.
      assert (adjacent_in_order (filter (fun q => status q = statusFilter) qs)) as Hf.
      { intros i a b. apply Sorted_adjacent. apply StronglySorted_Sorted.
        apply StronglySorted_filter_keep. by apply adjacent_in_order_StronglySorted. }
      split; [done|]. intros _ i a b Ha Hb.
      destruct (Hf i a b Ha Hb) as [_ Htie]. apply Htie.
      apply list_elem_of_lookup_2, list_elem_of_filter in Ha as [-> _].
      apply list_elem_of_lookup_2, list_elem_of_filter in Hb as [Hb _]. by rewrite Hb.
Qed.

(** ** The question card and the question form *)

(** X20: the card and the sort know the same statuses. A status has a
    priority in [sortQuestions] exactly when [getStatusColor] gives it a
    colour of its own; every other status is shown in gray and is left
    where it stands by the sort. *)
Theorem getStatusColor_matches_priority (s : string) :
  getStatusColor s = "bg-gray-100 text-gray-800 border-gray-300"
  <-> statusPriority s = NaN.
Proof.
  unfold getStatusColor, statusPriority.
  destruct (String.eqb s "Pending") eqn:E1.
  { apply String.eqb_eq in E1 as ->. by split. }
  destruct (String.eqb s "Escalated") eqn:E2; [by split|].
  destruct (String.eqb s "Answered") eqn:E3; by split.
Qed.


(** X22: what the question form submits. [handleSubmit] dispatches nothing
    exactly when the trimmed message is empty, or the [length] of the
    untrimmed message (its UTF-16 code units) is above 1000, or nobody is
    logged in and the trimmed guest name is empty. When it dispatches, the message sent is the trimmed one and is
    not empty, a guest name is sent exactly when nobody is logged in and is
    then not empty, and the token sent is never the empty string. *)
Theorem QuestionForm_submits (user token : option string) (message guestName : string) :
  (QuestionForm_handleSubmit user token message guestName = None <->
   String_trim message = EmptyString \/ (1000 < String_length message)%nat \/
   (user = None /\ String_trim guestName = EmptyString)) /\
  (forall args,
     QuestionForm_handleSubmit user token message guestName = Some args ->
     cq_message args = String_trim message /\ cq_message args <> EmptyString /\
     (String_length message <= 1000)%nat /\
     (user = None ->
      cq_guestName args = Some (String_trim guestName) /\
      String_trim guestName <> EmptyString) /\
     (user <> None -> cq_guestName args = None) /\
     cq_token args <> Some EmptyString).
Proof.
  unfold QuestionForm_handleSubmit, QuestionForm_validate. simpl.
  destruct (String.eqb (String_trim message) EmptyString) eqn:Em.
  { apply String.eqb_eq in Em. split; [|done]. split; auto. }
  apply String.eqb_neq in Em.
  destruct (1000 <? String_length message)%nat eqn:El.
  { apply Nat.ltb_lt in El. split; [|done]. split; auto. }
  apply Nat.ltb_ge in El.
  assert (or_else token None <> Some EmptyString) as Htok.
  { unfold or_else. destruct token as [t|]; [|done].
    destruct (String.eqb t EmptyString) eqn:Et; [done|].
    apply String.eqb_neq in Et. congruence. }
  destruct user as [u|].
  - split.
    + split; [done|]. intros [?|[?|[? _]]]; [done|lia|done].
    + intros args [= <-]. simpl. split_and!; try done.
  - destruct (String.eqb (String_trim guestName) EmptyString) eqn:Eg.
    { apply String.eqb_eq in Eg. split; [|done]. split; auto. }
    apply String.eqb_neq in Eg. split.
    + split; [done|]. intros [?|[?|[_ ?]]]; [done|lia|done].
    + intros args [= <-]. simpl. split_and!; try done.
Qed.

(** X26: calling [connect] again opens nothing more. When the policy gate
    lets the call through and the constructor does not throw, a second
    call right after a first one returns at the guard: the world after two
    calls is the world after one, so at most one socket is created. *)
Theorem connect_twice_opens_once (env : Env) (w : World) :
  can_open env ->
  connect env (connect env w) = connect env w /\
  (length (sockets (connect env (connect env w))) <= S (length (sockets w)))%nat.
Proof.
  intros [Hpol Hthrow].
  assert (connect env (connect env w) = connect env w) as Heq.
  { unfold connect at 2. rewrite Hpol, Hthrow.
    destruct (isConnecting w || ws_is_open w) eqn:Hg.
    - unfold connect. by rewrite Hpol, Hg.
    - unfold connect. rewrite Hpol, Hg, Hthrow. simpl. done. }
  split; [done|]. rewrite Heq. unfold connect. rewrite Hpol, Hthrow.
  destruct (isConnecting w || ws_is_open w); simpl; [lia|].
  rewrite length_app. simpl. lia.
Qed.

End Engine.

(** ** The properties at the data of the scenarios *)

(** The concrete [Date] on two strings of the scenarios. *)
Example iso_epoch : iso_getTime "1970-01-01T00:00:00Z" = Num 0.
Proof. reflexivity. Qed.

Example iso_2024 : iso_getTime "2024-01-01T00:00:00Z" = Num 1704067200000.
Proof. vm_compute. reflexivity. Qed.

(** The scenario of the specification: a Pending question of January 1st
    and an Escalated one of January 2nd come out in the order 2, 1. *)
Example sort_scenario :
  question_id <$> sortQuestions iso_getTime [q_pending; q_escalated] = [2; 1].
Proof. vm_compute. reflexivity. Qed.

Lemma fetched_questions_adjacent_in_order_witness :
  Forall (well_formed iso_getTime) [q_pending; q_escalated] /\
  adjacent_in_order iso_getTime
    (questions (fetchQuestions_fulfilled iso_getTime initialState [q_pending; q_escalated])).
Proof.
  assert (Forall (well_formed iso_getTime) [q_pending; q_escalated]) as H.
  { repeat constructor; vm_compute; discriminate. }
  split; [exact H|].
  exact (fetched_questions_adjacent_in_order iso_getTime initialState _ H).
Defined.

(** A fetched list with a status that the priority table does not have:
    the comparator answers [NaN] on every pair, the stable sort leaves the
    list as it is, and the Escalated question stays behind. *)
Lemma fetched_unknown_status_out_of_order :
  questions (fetchQuestions_fulfilled iso_getTime initialState [q_closed; q_escalated])
    = [q_closed; q_escalated] /\
  ~ adjacent_in_order iso_getTime
      (questions (fetchQuestions_fulfilled iso_getTime initialState [q_closed; q_escalated])).
Proof.
  split; [vm_compute; reflexivity|].
  intros H. destruct (H 0%nat q_closed q_escalated eq_refl eq_refl) as [Hle _].
  vm_compute in Hle. exact Hle.
Qed.

(** The same with a creation time that [Date] does not read. *)
Example fetched_invalid_date_out_of_order :
  let old := mkQuestion 4 "a" "Pending" "yesterday" None None 0 in
  let sorted := questions (fetchQuestions_fulfilled iso_getTime initialState [old; q_pending]) in
  sorted = [old; q_pending] /\ ~ adjacent_in_order iso_getTime sorted.
Proof.
  split; [vm_compute; reflexivity|].
  intros H. destruct (H 0%nat _ _ eq_refl eq_refl) as [_ Hge].
  specialize (Hge eq_refl). vm_compute in Hge. exact Hge.
Qed.

(** The same identifier delivered twice: both entries are in the
    collection afterwards. *)
Lemma addQuestion_twice_keeps_both :
  (exists q0, q0 ∈ questions (run_actions iso_getTime [AddQuestion q_pending]) /\
              question_id q0 = question_id q_pending_later) /\
  entries_with_id (question_id q_pending_later)
    (questions (run_actions iso_getTime [AddQuestion q_pending; AddQuestion q_pending_later]))
    = [q_pending; q_pending_later] /\
  entries_with_id (question_id q_pending_later)
    (questions (addQuestion iso_getTime
                  (run_actions iso_getTime [AddQuestion q_pending]) q_pending_later))
    <> [q_pending_later].
Proof.
  split_and!.
  - exists q_pending. split; [|reflexivity]. vm_compute. by left.
  - vm_compute. reflexivity.
  - vm_compute. discriminate.
Qed.

Lemma addQuestion_adds_one_entry_witness :
  (forall q0, q0 ∈ questions (run_actions iso_getTime [AddQuestion q_escalated]) ->
              question_id q0 <> question_id q_pending) /\
  entries_with_id (question_id q_pending)
    (questions (addQuestion iso_getTime
                  (run_actions iso_getTime [AddQuestion q_escalated]) q_pending))
    = [q_pending].
Proof.
  assert (forall q0, q0 ∈ questions (run_actions iso_getTime [AddQuestion q_escalated]) ->
                     question_id q0 <> question_id q_pending) as H.
  { intros q0 Hq0. vm_compute in Hq0. apply list_elem_of_singleton in Hq0 as ->.
    vm_compute. discriminate. }
  split; [exact H|].
  exact (proj2 (proj2 (addQuestion_adds_one_entry iso_getTime _ q_pending)) H).
Defined.

(** The scenario of the specification: a [new_response] for the question 1,
    held with [response_count] 3, leaves it at 4. *)
Example addResponse_scenario :
  questions (reducer iso_getTime
               (run_actions iso_getTime [FetchQuestionsFulfilled [q_pending; q_escalated]])
               (AddResponse r_nine)) !! 1%nat
  = Some (mkQuestion 1 "How do I reset my password?" "Pending" "2024-01-01T00:00:00Z"
                     None (Some "ana") 4).
Proof. vm_compute. reflexivity. Qed.

Lemma addResponse_counter_witness :
  (exists q, q ∈ questions (run_actions iso_getTime [AddQuestion q_pending]) /\
             question_id q = r_question_id r_nine) /\
  exists (i : nat) (q q' : Question),
    questions (run_actions iso_getTime [AddQuestion q_pending]) !! i = Some q /\
    question_id q = r_question_id r_nine /\
    questions (addResponse (run_actions iso_getTime [AddQuestion q_pending]) r_nine) !! i
      = Some q' /\
    (Z.abs (response_count q) <= MAX_SAFE_INTEGER ->
     response_count q' = response_count q + 1).
Proof.
  assert (exists q, q ∈ questions (run_actions iso_getTime [AddQuestion q_pending]) /\
                    question_id q = r_question_id r_nine) as H.
  { exists q_pending. split; [|reflexivity]. vm_compute. by left. }
  split; [exact H|].
  destruct (proj1 (addResponse_counter
                     (run_actions iso_getTime [AddQuestion q_pending]) r_nine) H)
    as (i & q & q' & H1 & H2 & _ & H4 & H5 & _).
  exists i, q, q'. by split_and!.
Defined.

(** A question that is held with [response_count] 2^53: the sum 2^53 + 1 is
    no double and rounds back to 2^53, so the response is added and the
    count is what it was. *)
Lemma addResponse_counter_saturates :
  (exists q, q ∈ questions (run_actions iso_getTime [AddQuestion q_saturated]) /\
             question_id q = r_question_id r_nine) /\
  response_count <$> questions (run_actions iso_getTime [AddQuestion q_saturated])
    = [9007199254740992] /\
  response_count <$>
    questions (addResponse (run_actions iso_getTime [AddQuestion q_saturated]) r_nine)
    = [9007199254740992] /\
  response_count <$>
    questions (addResponse (run_actions iso_getTime [AddQuestion q_saturated]) r_nine)
    <> [9007199254740992 + 1].
Proof.
  split_and!.
  - exists q_saturated. split; [|reflexivity]. vm_compute. by left.
  - vm_compute. reflexivity.
  - vm_compute. reflexivity.
  - vm_compute. discriminate.
Qed.

Example round_double_scenarios :
  round_double 9007199254740993 = 9007199254740992 /\
  round_double 9007199254740995 = 9007199254740996 /\
  round_double 18014398509481985 = 18014398509481984 /\
  round_double (-9007199254740993) = -9007199254740992 /\
  round_double 9007199254740991 = 9007199254740991.
Proof. split_and!; vm_compute; reflexivity. Qed.

Lemma updateQuestion_refreshes_selected_witness :
  selectedQuestion (run_actions iso_getTime [SetSelectedQuestion (Some q_pending)])
    = Some q_pending /\
  question_id q_pending_later = question_id q_pending /\
  selectedQuestion
    (updateQuestion iso_getTime
       (run_actions iso_getTime [SetSelectedQuestion (Some q_pending)]) q_pending_later)
    = Some q_pending_later.
Proof.
  split_and!; [reflexivity|reflexivity|].
  exact (updateQuestion_refreshes_selected iso_getTime
           (run_actions iso_getTime [SetSelectedQuestion (Some q_pending)])
           q_pending q_pending_later eq_refl eq_refl).
Defined.

(** The selected question 1 is no longer in the refetched list; an update
    for it finds no entry and still replaces the selected question. *)
Lemma updateQuestion_absent_changes_selected :
  (forall q0,
     q0 ∈ questions (run_actions iso_getTime
                       [FetchQuestionsFulfilled [q_pending; q_escalated];
                        SetSelectedQuestion (Some q_pending);
                        FetchQuestionsFulfilled [q_escalated]]) ->
     question_id q0 <> question_id q_pending_later) /\
  updateQuestion iso_getTime
    (run_actions iso_getTime
       [FetchQuestionsFulfilled [q_pending; q_escalated];
        SetSelectedQuestion (Some q_pending);
        FetchQuestionsFulfilled [q_escalated]]) q_pending_later
  <> run_actions iso_getTime
       [FetchQuestionsFulfilled [q_pending; q_escalated];
        SetSelectedQuestion (Some q_pending);
        FetchQuestionsFulfilled [q_escalated]].
Proof.
  split.
  - intros q0 Hq0. vm_compute in Hq0. apply list_elem_of_singleton in Hq0 as ->.
    vm_compute. discriminate.
  - vm_compute. discriminate.
Qed.

Lemma updateQuestion_absent_witness :
  (forall q0,
     q0 ∈ questions (run_actions iso_getTime
                       [FetchQuestionsFulfilled [q_escalated];
                        SetSelectedQuestion (Some q_escalated)]) ->
     question_id q0 <> question_id q_pending_later) /\
  updateQuestion iso_getTime
    (run_actions iso_getTime
       [FetchQuestionsFulfilled [q_escalated];
        SetSelectedQuestion (Some q_escalated)]) q_pending_later
  = run_actions iso_getTime
      [FetchQuestionsFulfilled [q_escalated]; SetSelectedQuestion (Some q_escalated)].
Proof.
  assert (forall q0,
            q0 ∈ questions (run_actions iso_getTime
                              [FetchQuestionsFulfilled [q_escalated];
                               SetSelectedQuestion (Some q_escalated)]) ->
            question_id q0 <> question_id q_pending_later) as H.
  { intros q0 Hq0. vm_compute in Hq0. apply list_elem_of_singleton in Hq0 as ->.
    vm_compute. discriminate. }
  split; [exact H|].
  apply (updateQuestion_absent iso_getTime _ q_pending_later H).
  intros sel Hsel. injection Hsel as <-. vm_compute. discriminate.
Defined.

(** The scenario of the specification: the push [{type: ping}] leaves the
    Store as it is and the handler returns. *)
Example ping_scenario (state : QuestionsState) :
  onmessage iso_getTime scenario_parse ping_payload state []
  = Returned state [log_message_received (JObject [("type", JString "ping")]);
                    log_unknown_type (Val (JString "ping"))].
Proof. reflexivity. Qed.

(** A payload that is not JSON, and the payload [null], whose [type]
    cannot be read: both end in the [catch]. *)
Example malformed_scenario (state : QuestionsState) :
  onmessage iso_getTime scenario_parse "{oops" state []
    = Returned state [error_parsing_message SyntaxError] /\
  onmessage iso_getTime scenario_parse "null" state []
    = Returned state [log_message_received JNull; error_parsing_message TypeError].
Proof. split; reflexivity. Qed.

Lemma unrouted_push_is_dropped_witness :
  (scenario_parse ping_payload = None \/
   forall ty, recognised ty -> discriminator scenario_parse ping_payload <> Some ty) /\
  exists more,
    onmessage iso_getTime scenario_parse ping_payload
      (run_actions iso_getTime [AddQuestion q_pending]) []
    = Returned (run_actions iso_getTime [AddQuestion q_pending]) ([] ++ more).
Proof.
  assert (scenario_parse ping_payload = None \/
          forall ty, recognised ty -> discriminator scenario_parse ping_payload <> Some ty)
    as H.
  { right. intros ty [-> | [-> | ->]]; vm_compute; discriminate. }
  split; [exact H|].
  exact (proj1 (unrouted_push_is_dropped iso_getTime scenario_parse never_throws
                  ping_payload H) _ _).
Defined.

(** With the API origin at its [http://] default on an [https:] page the
    first [connect] of the session, and every later event, opens nothing. *)
Lemma policy_skip_is_permanent_witness :
  isApiHttp https_page_http_api = true /\
  isPageHttps https_page_http_api = true /\
  connect never_throws https_page_http_api initialWorld
    = console_write warn_websocket_disabled initialWorld /\
  (forall evs w,
     run iso_getTime scenario_parse never_throws https_page_http_api initialWorld evs
       = Some w ->
     sockets w = [] /\ timers w = []).
Proof.
  split_and!; [reflexivity|reflexivity| |].
  - exact (proj1 (proj1 (policy_skip_is_permanent iso_getTime scenario_parse never_throws
                           https_page_http_api eq_refl eq_refl) initialWorld)).
  - intros evs w Hrun.
    destruct (proj2 (policy_skip_is_permanent iso_getTime scenario_parse never_throws
                       https_page_http_api eq_refl eq_refl) evs w Hrun) as (Hs & Ht & _).
    by split.
Defined.

(** On an [https:] page with an [https://] API origin the same call
    creates the socket: the skip is the policy's, not the model's. *)
Example connect_opens_when_allowed :
  sockets (connect never_throws https_page_https_api initialWorld) = [CONNECTING] /\
  WS_URL https_page_https_api = "wss://api.example.org/ws".
Proof. split; reflexivity. Qed.

(** The question 1 is selected and a response to the question 2 is pushed:
    the responses are no longer those of the selected question. *)
Lemma responses_not_scoped :
  scoped (run_actions iso_getTime
            [FetchQuestionsFulfilled [q_pending; q_escalated];
             SetSelectedQuestion (Some q_pending)]) /\
  reachable iso_getTime
    (run_actions iso_getTime
       [FetchQuestionsFulfilled [q_pending; q_escalated];
        SetSelectedQuestion (Some q_pending);
        AddResponse r_other]) /\
  ~ scoped (run_actions iso_getTime
              [FetchQuestionsFulfilled [q_pending; q_escalated];
               SetSelectedQuestion (Some q_pending);
               AddResponse r_other]).
Proof.
  split_and!.
  - intros sel _ r Hr. vm_compute in Hr. by apply not_elem_of_nil in Hr.
  - by eexists.
  - intros H. specialize (H q_pending eq_refl r_other).
    assert (r_question_id r_other = question_id q_pending) as Hid.
    { apply H. vm_compute. by left. }
    vm_compute in Hid. discriminate.
Qed.

(** Changing the selection keeps the responses of the earlier one. *)
Example setSelectedQuestion_keeps_responses :
  ~ scoped (run_actions iso_getTime
              [SetSelectedQuestion (Some q_pending);
               FetchResponsesFulfilled [r_nine];
               SetSelectedQuestion (Some q_escalated)]).
Proof.
  intros H. specialize (H q_escalated eq_refl r_nine).
  assert (r_question_id r_nine = question_id q_escalated) as Hid.
  { apply H. vm_compute. by left. }
  vm_compute in Hid. discriminate.
Qed.

Lemma scoping_by_operation_witness :
  scoped (run_actions iso_getTime [SetSelectedQuestion (Some q_pending)]) /\
  scoped (reducer iso_getTime
            (run_actions iso_getTime [SetSelectedQuestion (Some q_pending)])
            (AddResponse r_nine)).
Proof.
  assert (scoped (run_actions iso_getTime [SetSelectedQuestion (Some q_pending)])) as H.
  { intros sel _ r Hr. vm_compute in Hr. by apply not_elem_of_nil in Hr. }
  split; [exact H|].
  apply (proj1 (proj2 (scoping_by_operation iso_getTime _ H)) r_nine).
  intros sel Hsel. injection Hsel as <-. reflexivity.
Defined.

Lemma fetchQuestions_fulfilled_frame_witness :
  selectedQuestion
    (reducer iso_getTime
       (run_actions iso_getTime [SetSelectedQuestion (Some q_pending)])
       (FetchQuestionsFulfilled [q_pending_later]))
  = Some q_pending /\
  questions
    (reducer iso_getTime
       (run_actions iso_getTime [SetSelectedQuestion (Some q_pending)])
       (FetchQuestionsFulfilled [q_pending_later]))
  = [q_pending_later].
Proof.
  destruct (proj1 (fetchQuestions_fulfilled_frame iso_getTime)
              (run_actions iso_getTime [SetSelectedQuestion (Some q_pending)])
              [q_pending_later]) as (Hq & _ & Hs & _).
  split; [by rewrite Hs | by rewrite Hq].
Defined.

(** A session under the policy skip: mounting, unmounting and mounting
    again runs, writes the warning twice and opens nothing; a timeout or a
    socket event cannot occur, for there is neither. *)
Example skipped_session :
  (exists w,
     run iso_getTime scenario_parse never_throws https_page_http_api initialWorld
       [Mount; Unmount; Mount] = Some w /\
     sockets w = [] /\ timers w = [] /\
     console w = [warn_websocket_disabled; warn_websocket_disabled]) /\
  run iso_getTime scenario_parse never_throws https_page_http_api initialWorld
    [Mount; TimerFires 1] = None /\
  run iso_getTime scenario_parse never_throws https_page_http_api initialWorld
    [Mount; Opened 0] = None.
Proof. split_and!; [eexists; split_and!; reflexivity | reflexivity | reflexivity]. Qed.

(** Without the skip a closed socket is followed by one scheduled
    reconnect, and the timeout opens the next socket. *)
Example reconnect_session :
  exists w,
    run iso_getTime scenario_parse never_throws https_page_https_api initialWorld
      [Mount; Opened 0; Closed 0; TimerFires 1] = Some w /\
    sockets w = [CLOSED; CONNECTING] /\ timers w = [] /\ wsRef w = Some 1%nat.
Proof. eexists. split_and!; reflexivity. Qed.

(** ** The authentication slice *)

Lemma Auth_fulfilled_storage (st : Auth.AuthState) (ls : gmap string string)
    (p : Auth.Credentials) :
  snd (Auth.fulfilled true st ls p) !! "token" = Some (Auth.access_token p) /\
  snd (Auth.fulfilled true st ls p) !! "username" = Some (Auth.username p).
Proof.
  simpl. split.
  - rewrite lookup_insert_ne by done. apply lookup_insert_eq.
  - apply lookup_insert_eq.
Qed.

(** X23: a login survives a reload exactly when both credentials are not
    empty. After [login.fulfilled] (or [register.fulfilled]) in a browser
    the state holds the user and the token of the payload, and
    [getInitialState] on the storage written restores that user and that
    token when both strings are non-empty; when one of them is empty the
    reloaded state is logged out although the running state was logged in.
    Where [window] is undefined the storage is not written. *)
Theorem Auth_session_round_trip (st : Auth.AuthState) (ls : gmap string string)
    (p : Auth.Credentials) :
  Auth.user (fst (Auth.fulfilled true st ls p)) = Some (Auth.username p) /\
  Auth.token (fst (Auth.fulfilled true st ls p)) = Some (Auth.access_token p) /\
  (Auth.access_token p <> EmptyString -> Auth.username p <> EmptyString ->
   Auth.getInitialState true (snd (Auth.fulfilled true st ls p))
   = Auth.mkAuthState (Some (Auth.username p)) (Some (Auth.access_token p)) false None) /\
  (Auth.access_token p = EmptyString \/ Auth.username p = EmptyString ->
   Auth.getInitialState true (snd (Auth.fulfilled true st ls p)) = Auth.loggedOut) /\
  snd (Auth.fulfilled false st ls p) = ls.
Proof.
  destruct (Auth_fulfilled_storage st ls p) as [Ht Hu].
  split_and!; try done.
  - intros Hta Hua. unfold Auth.getInitialState. rewrite Ht, Hu. simpl.
    apply String.eqb_neq in Hta, Hua. by rewrite Hta, Hua.
  - intros Hempty. unfold Auth.getInitialState. rewrite Ht, Hu. simpl.
    destruct Hempty as [-> | ->]; simpl; [done|].
    by destruct (String.eqb (Auth.access_token p) EmptyString).
Qed.

(** X24: a logout does not survive as a session. After [logout] in a
    browser the state has no user, no token and no error, the storage has
    neither key, a reload starts logged out whatever else the storage
    holds, and a second [logout] changes nothing. *)
Theorem Auth_logout_clears_session (st : Auth.AuthState) (ls : gmap string string) :
  Auth.user (fst (Auth.logout true st ls)) = None /\
  Auth.token (fst (Auth.logout true st ls)) = None /\
  Auth.error (fst (Auth.logout true st ls)) = None /\
  snd (Auth.logout true st ls) !! "token" = None /\
  snd (Auth.logout true st ls) !! "username" = None /\
  Auth.getInitialState true (snd (Auth.logout true st ls)) = Auth.loggedOut /\
  Auth.reducer true (Auth.reducer true (st, ls) Auth.Logout) Auth.Logout
  = Auth.reducer true (st, ls) Auth.Logout.
Proof.
  assert (snd (Auth.logout true st ls) !! "token" = None) as Ht.
  { simpl. rewrite lookup_delete_ne by done. apply lookup_delete_eq. }
  assert (snd (Auth.logout true st ls) !! "username" = None) as Hu.
  { simpl. apply lookup_delete_eq. }
  split_and!; try done.
  - unfold Auth.getInitialState. by rewrite Ht.
  - simpl. unfold Auth.logout. simpl. f_equal.
    apply map_eq. intros k. rewrite !lookup_delete.
    by repeat case_decide.
Qed.



(** ** The further properties at the data of the scenarios *)

Lemma scenario_questions_well_formed :
  Forall (well_formed iso_getTime) [q_pending; q_escalated].
Proof. repeat constructor; vm_compute; discriminate. Qed.

Lemma sortQuestions_stable_witness :
  Forall (well_formed iso_getTime) [q_pending; q_escalated; q_saturated] /\
  filter (fun q => sort_key q = ("Pending", "2024-01-01T00:00:00Z"))
    (sortQuestions iso_getTime [q_pending; q_escalated; q_saturated])
  = [q_pending; q_saturated].
Proof.
  assert (Forall (well_formed iso_getTime) [q_pending; q_escalated; q_saturated]) as H.
  { repeat constructor; vm_compute; discriminate. }
  split; [exact H|].
  rewrite (sortQuestions_stable iso_getTime "Pending" "2024-01-01T00:00:00Z" _ H).
  reflexivity.
Defined.

Lemma sortQuestions_idempotent_witness :
  Forall (well_formed iso_getTime) [q_pending; q_escalated] /\
  sortQuestions iso_getTime (sortQuestions iso_getTime [q_pending; q_escalated])
  = sortQuestions iso_getTime [q_pending; q_escalated].
Proof.
  split; [exact scenario_questions_well_formed|].
  exact (proj2 (sortQuestions_idempotent iso_getTime [q_pending; q_escalated]
                  scenario_questions_well_formed)).
Defined.

Lemma store_stays_ordered_witness :
  Forall (payload_well_formed iso_getTime)
    [FetchQuestionsFulfilled [q_pending; q_escalated];
     UpdateQuestion q_pending_later; AddResponse r_nine] /\
  ordered iso_getTime
    (run_actions iso_getTime
       [FetchQuestionsFulfilled [q_pending; q_escalated];
        UpdateQuestion q_pending_later; AddResponse r_nine]).
Proof.
  assert (Forall (payload_well_formed iso_getTime)
            [FetchQuestionsFulfilled [q_pending; q_escalated];
             UpdateQuestion q_pending_later; AddResponse r_nine]) as H.
  { repeat constructor; vm_compute; discriminate. }
  split; [exact H|].
  exact (proj1 (store_stays_ordered iso_getTime _ H)).
Defined.

(** A status update moves the question: the Pending question 1 becomes
    Answered and goes behind the Escalated one, where it already was. *)
Example updateQuestion_scenario :
  questions (run_actions iso_getTime
               [FetchQuestionsFulfilled [q_pending; q_escalated];
                UpdateQuestion q_pending_later])
  = [q_escalated; q_pending_later].
Proof. vm_compute. reflexivity. Qed.

Lemma updateQuestion_present_witness :
  (exists q0,
     q0 ∈ questions (run_actions iso_getTime
                       [FetchQuestionsFulfilled [q_pending; q_escalated]]) /\
     question_id q0 = question_id q_pending_later) /\
  q_pending_later
  ∈ questions (updateQuestion iso_getTime
                 (run_actions iso_getTime
                    [FetchQuestionsFulfilled [q_pending; q_escalated]])
                 q_pending_later).
Proof.
  assert (exists q0,
            q0 ∈ questions (run_actions iso_getTime
                              [FetchQuestionsFulfilled [q_pending; q_escalated]]) /\
            question_id q0 = question_id q_pending_later) as H.
  { exists q_pending. split; [|reflexivity]. vm_compute. right. by left. }
  split; [exact H|].
  exact (proj1 (proj2 (updateQuestion_present iso_getTime _ q_pending_later) H)).
Defined.

Lemma identifiers_never_lost_witness :
  ~ is_refetch (AddQuestion q_pending_later) /\
  (1 ∈ question_id <$> questions (run_actions iso_getTime [AddQuestion q_pending])) /\
  (1 ∈ question_id <$>
         questions (reducer iso_getTime (run_actions iso_getTime [AddQuestion q_pending])
                      (AddQuestion q_pending_later))).
Proof.
  assert (~ is_refetch (AddQuestion q_pending_later)) as Hn by (intros []).
  assert (1 ∈ question_id <$> questions (run_actions iso_getTime [AddQuestion q_pending]))
    as Hin by (vm_compute; by left).
  split_and!; [exact Hn|exact Hin|].
  exact (proj1 (identifiers_never_lost iso_getTime _ _ 1 Hn) Hin).
Defined.

Lemma push_keeps_flags_witness :
  onmessage iso_getTime push_parse new_response_payload
    (thunk_pending initialState) []
  = Returned (addResponse (thunk_pending initialState) r_nine)
      [log_message_received new_response_message] /\
  loading (addResponse (thunk_pending initialState) r_nine) = true /\
  error (addResponse (thunk_pending initialState) r_nine) = None.
Proof.
  assert (onmessage iso_getTime push_parse new_response_payload
            (thunk_pending initialState) []
          = Returned (addResponse (thunk_pending initialState) r_nine)
              [log_message_received new_response_message]) as H
    by (vm_compute; reflexivity).
  split; [exact H|].
  destruct (push_keeps_flags iso_getTime push_parse _ _ _ _ _ H) as (Hl & He & _).
  split; [exact Hl|exact He].
Defined.

(** The scenario of the specification through the router: the push of the
    response 9 to the question 1, held with [response_count] 3, is handed
    to [addResponse] and leaves the count at 4. *)
Lemma recognised_push_is_routed_witness :
  push_parse new_response_payload = Some new_response_message /\
  Get new_response_message "type" = Some (Val (JString "new_response")) /\
  Get new_response_message "data" ≫= asResponse = Some r_nine /\
  onmessage iso_getTime push_parse new_response_payload
    (run_actions iso_getTime [AddQuestion q_pending]) []
  = Returned (addResponse (run_actions iso_getTime [AddQuestion q_pending]) r_nine)
      ([] ++ [log_message_received new_response_message]).
Proof.
  assert (push_parse new_response_payload = Some new_response_message) as Hp
    by (vm_compute; reflexivity).
  split_and!; [exact Hp|reflexivity|reflexivity|].
  exact (proj2 (proj2 (recognised_push_is_routed iso_getTime push_parse
                         new_response_payload new_response_message _ _ Hp))
           r_nine eq_refl eq_refl).
Defined.

Example pushed_response_scenario :
  exists state' out,
    onmessage iso_getTime push_parse new_response_payload
      (run_actions iso_getTime [AddQuestion q_pending]) [] = Returned state' out /\
    response_count <$> questions state' = [4] /\ responses state' = [r_nine].
Proof. eexists _, _. split; [vm_compute; reflexivity|]. by split. Qed.

Lemma getWebSocketURL_scheme_witness :
  (apiUrl https_page_https_api = "http://" +:+ "api.example.org" \/
   apiUrl https_page_https_api = "https://" +:+ "api.example.org") /\
  getWebSocketURL https_page_https_api = "wss://api.example.org/ws".
Proof.
  assert (apiUrl https_page_https_api = "http://" +:+ "api.example.org" \/
          apiUrl https_page_https_api = "https://" +:+ "api.example.org") as H
    by (right; reflexivity).
  split; [exact H|].
  exact (getWebSocketURL_scheme https_page_https_api "api.example.org" H).
Defined.

Lemma getWebSocketURL_other_scheme_witness :
  String.prefix "http" (apiUrl http_page_relative_api) = false /\
  getWebSocketURL http_page_relative_api = "/backend/ws".
Proof.
  split; [reflexivity|].
  exact (proj1 (getWebSocketURL_other_scheme http_page_relative_api eq_refl)).
Defined.

Lemma can_open_https : can_open never_throws https_page_https_api.
Proof. by split. Qed.

Lemma close_then_timer_reconnects_witness :
  can_open never_throws https_page_https_api /\
  sockets (connect never_throws https_page_https_api initialWorld) !! 0%nat
    = Some CONNECTING /\
  CONNECTING <> CLOSED /\
  exists w',
    run iso_getTime scenario_parse never_throws https_page_https_api
      (connect never_throws https_page_https_api initialWorld)
      [Closed 0; TimerFires 1] = Some w' /\
    sockets w' = [CLOSED; CONNECTING] /\ wsRef w' = Some 1%nat.
Proof.
  assert (CONNECTING <> CLOSED) as Hne by discriminate.
  split_and!; [exact can_open_https|reflexivity|exact Hne|].
  destruct (close_then_timer_reconnects iso_getTime scenario_parse never_throws
              https_page_https_api
              (connect never_throws https_page_https_api initialWorld)
              0%nat CONNECTING can_open_https eq_refl Hne)
    as (w' & Hrun & Hs & Hw & _).
  exists w'. by split_and!.
Defined.

Lemma cleanup_does_not_stop_reconnect_witness :
  can_open never_throws https_page_https_api /\
  wsRef (connect never_throws https_page_https_api initialWorld) = Some 0%nat /\
  live CONNECTING /\
  exists w3,
    run iso_getTime scenario_parse never_throws https_page_https_api
      (connect never_throws https_page_https_api initialWorld)
      [Unmount; Closed 0; TimerFires 1] = Some w3 /\
    length (sockets w3) = 2%nat /\ wsRef w3 = Some 1%nat.
Proof.
  assert (live CONNECTING) as Hl by (by left).
  split_and!; [exact can_open_https|reflexivity|exact Hl|].
  destruct (cleanup_does_not_stop_reconnect iso_getTime scenario_parse never_throws
              https_page_https_api
              (connect never_throws https_page_https_api initialWorld)
              0%nat CONNECTING can_open_https eq_refl eq_refl Hl)
    as (w1 & w2 & w3 & H1 & _ & _ & H2 & _ & _ & H3 & Hlen & Hw & _).
  exists w3. split_and!; [|exact Hlen|exact Hw].
  cbn [run]. rewrite H1, H2. change (next_timer _) with 1%nat in H3. by rewrite H3.
Defined.

(** One hour after the question was created. *)
Lemma formatDistanceToNow_by_seconds_witness :
  iso_getTime "2024-01-01T00:00:00Z" = Num 1704067200000 /\
  formatDistanceToNow iso_getTime 1704070800000 "2024-01-01T00:00:00Z" = "1 hour ago".
Proof.
  assert (iso_getTime "2024-01-01T00:00:00Z" = Num 1704067200000) as H
    by (vm_compute; reflexivity).
  split; [exact H|].
  rewrite (proj1 (formatDistanceToNow_by_seconds iso_getTime 1704070800000
                    "2024-01-01T00:00:00Z") _ H).
  vm_compute. reflexivity.
Defined.

Example formatDistanceToNow_scenarios :
  formatDistanceToNow iso_getTime 1704067259999 "2024-01-01T00:00:00Z" = "just now" /\
  formatDistanceToNow iso_getTime 1704067260000 "2024-01-01T00:00:00Z" = "1 minute ago" /\
  formatDistanceToNow iso_getTime 1704067320000 "2024-01-01T00:00:00Z" = "2 minutes ago" /\
  formatDistanceToNow iso_getTime 1704000000000 "2024-01-01T00:00:00Z" = "just now" /\
  formatDistanceToNow iso_getTime 1735171200000 "2024-01-01T00:00:00Z" = "1 year ago" /\
  formatDistanceToNow iso_getTime 1704067260000 "yesterday" = "NaN year ago".
Proof. split_and!; vm_compute; reflexivity. Qed.

Lemma formatDistanceToNow_count_bounds_witness :
  iso_getTime "2024-01-01T00:00:00Z" = Num 1704067200000 /\
  60000 <= 1704070800000 - 1704067200000 /\
  exists n unit,
    formatDistanceToNow iso_getTime 1704070800000 "2024-01-01T00:00:00Z"
    = ago (Num n) unit /\ 1 <= n.
Proof.
  assert (iso_getTime "2024-01-01T00:00:00Z" = Num 1704067200000) as H
    by (vm_compute; reflexivity).
  assert (60000 <= 1704070800000 - 1704067200000) as Hge by lia.
  split_and!; [exact H|exact Hge|].
  destruct (proj2 (formatDistanceToNow_count_bounds iso_getTime 1704070800000
                     "2024-01-01T00:00:00Z" _ H) Hge) as (n & unit & Heq & Hn & _).
  by exists n, unit.
Defined.

Lemma scenario_list_in_order :
  adjacent_in_order iso_getTime [q_escalated; q_pending; q_pending_later].
Proof.
  intros [|[|i]] a b Ha Hb; try done; injection Ha as <-; injection Hb as <-;
    vm_compute; (split; [discriminate|]); intros; discriminate.
Qed.

Lemma order_is_global_witness :
  adjacent_in_order iso_getTime [q_escalated; q_pending; q_pending_later] /\
  in_order iso_getTime q_escalated q_pending_later.
Proof.
  split; [exact scenario_list_in_order|].
  exact (order_is_global iso_getTime _ 0%nat 2%nat q_escalated q_pending_later
           scenario_list_in_order ltac:(lia) eq_refl eq_refl).
Defined.

Lemma filteredQuestions_in_order_witness :
  adjacent_in_order iso_getTime [q_escalated; q_pending; q_pending_later] /\
  filteredQuestions "Pending" [q_escalated; q_pending; q_pending_later] = [q_pending] /\
  adjacent_in_order iso_getTime
    (filteredQuestions "Pending" [q_escalated; q_pending; q_pending_later]).
Proof.
  split_and!; [exact scenario_list_in_order|reflexivity|].
  exact (proj1 (proj2 (proj2 (filteredQuestions_in_order iso_getTime "Pending" _))
                 scenario_list_in_order)).
Defined.

Example ascii_trim_scenarios :
  ascii_trim "  hi there " = "hi there" /\ ascii_trim "   " = EmptyString.
Proof. split; reflexivity. Qed.

(** A guest with a blank name is not submitted; a logged-in user with
    spaces around the question submits the trimmed text and the token. On
    these ASCII strings the length in code units is the length of the
    string. *)
Lemma QuestionForm_submits_witness :
  QuestionForm_handleSubmit ascii_trim String.length None None "Is it down?" "   "
  = None /\
  QuestionForm_handleSubmit ascii_trim String.length (Some "ana") (Some "tok-1")
    "  Is it down? " "x"
  = Some (mkCreateQuestionArgs "Is it down?" None (Some "tok-1")).
Proof.
  split.
  - apply (proj1 (QuestionForm_submits ascii_trim String.length None None
                    "Is it down?" "   ")).
    right. right. by split.
  - reflexivity.
Defined.

Lemma Auth_session_round_trip_witness :
  Auth.access_token bo_credentials <> EmptyString /\
  Auth.username bo_credentials <> EmptyString /\
  Auth.getInitialState true
    (snd (Auth.fulfilled true Auth.loggedOut stored_session bo_credentials))
  = Auth.mkAuthState (Some "bo") (Some "tok-2") false None.
Proof.
  assert (Auth.access_token bo_credentials <> EmptyString) as Ht by discriminate.
  assert (Auth.username bo_credentials <> EmptyString) as Hu by discriminate.
  split_and!; [exact Ht|exact Hu|].
  exact (proj1 (proj2 (proj2 (Auth_session_round_trip Auth.loggedOut stored_session
                                bo_credentials))) Ht Hu).
Defined.


Example Auth_reload_scenario :
  Auth.getInitialState true stored_session
  = Auth.mkAuthState (Some "ana") (Some "tok-1") false None /\
  Auth.getInitialState false stored_session = Auth.loggedOut /\
  Auth.getInitialState true (<["token" := "tok-1"]> ∅) = Auth.loggedOut.
Proof. split_and!; reflexivity. Qed.

Lemma connect_twice_opens_once_witness :
  can_open never_throws https_page_https_api /\
  sockets (connect never_throws https_page_https_api
             (connect never_throws https_page_https_api initialWorld))
  = [CONNECTING].
Proof.
  split; [exact can_open_https|].
  rewrite (proj1 (connect_twice_opens_once never_throws https_page_https_api
                    initialWorld can_open_https)).
  reflexivity.
Defined.
